(** * PF2e system: shallow embedding of the crafting entry, the legacy actor
    data preparation, damage application and the item document hooks.

    Sources embedded here:
    - [src/module/actor/character/crafting/entry.ts]  (module [Crafting])
    - the legacy [ActorPF2e] class (prepareData, _prepareCharacterData,
      applyDamage)                                      (module [Actor])
    - [src/module/item/base.ts] (getRollOptions, _preUpdate) (module [Item])

    Conventions.  JavaScript numbers that the code treats as integers
    (levels, ranks, quantities, hit points, slot counts) are [Z]; an optional
    property ([quantity?: number]) is an [option]; a [Set<string>] is a
    [gset string]; an array is a [list]; an object used as a dictionary and
    only read by key is a [gmap string _]; an object whose values are
    visited by [Object.values] and rewritten in place is an association
    list in insertion order.  Calls that leave this code (notifications,
    [actor.update]) are recorded in an explicit log carried by the state. *)

From Stdlib Require Import QArith Qcanon Qround.
From stdpp Require Import base numbers strings list gmap pretty.

#[local] Set Warnings "-clear-no-such-hyp".

Local Open Scope Z_scope.

(** ** JavaScript helpers shared by the modules *)

(** Truthiness of an integer-valued number: only [0] is falsy. *)
Definition truthy (z : Z) : bool := negb (z =? 0).

(** [x || d] for an optional number: [undefined] and [0] give [d]. *)
Definition or_default (x : option Z) (d : Z) : Z :=
  match x with
  | Some v => if truthy v then v else d
  | None => d
  end.

(** [!!x] for an optional boolean flag. *)
Definition flag (b : option bool) : bool := default false b.

(** [Math.ceil(q / b)] for integers [q] and [b <> 0]: the least integer that
    is not below the exact quotient. *)
Definition ceil_div (q b : Z) : Z := - ((- q) / b).

(** [arr[i]] for a numeric index: [undefined] outside [0 .. length-1]. *)
Definition js_index {A} (l : list A) (i : Z) : option A :=
  if decide (0 ≤ i) then l !! Z.to_nat i else None.

(** Sum of a list of integers. *)
Definition sumZ (l : list Z) : Z := foldr Z.add 0 l.

(** ** Crafting entries *)

Module Crafting.

(** The part of an item document that the entry reads.  [consumableType]
    is [Some _] exactly for items of type consumable. *)
Record ItemData := {
  uuid : string;
  traits : gset string;
  consumableType : option string;
}.

(** [PreparedFormula extends CraftingFormula]: the formula's item and level
    plus the three optional preparation fields.  A plain [CraftingFormula]
    is a [PreparedFormula] whose optional fields are whatever the object
    carries (normally all [undefined]).  The [uuid] getter of a formula is
    its item's uuid. *)
Record PreparedFormula := {
  item : ItemData;
  level : Z;
  quantity : option Z;
  expended : option bool;
  isSignatureItem : option bool;
}.

Definition formula_uuid (f : PreparedFormula) : string := uuid (item f).

Definition set_quantity (q : option Z) (f : PreparedFormula) : PreparedFormula :=
  {| item := item f; level := level f; quantity := q;
     expended := expended f; isSignatureItem := isSignatureItem f |}.

Definition set_expended (b : option bool) (f : PreparedFormula) : PreparedFormula :=
  {| item := item f; level := level f; quantity := quantity f;
     expended := b; isSignatureItem := isSignatureItem f |}.

Definition set_isSignatureItem (b : option bool) (f : PreparedFormula) : PreparedFormula :=
  {| item := item f; level := level f; quantity := quantity f;
     expended := expended f; isSignatureItem := b |}.

(** One element of the array written back to the actor. *)
Record ActorPreparedFormula := {
  apf_itemUUID : string;
  apf_quantity : option Z;
  apf_expended : option bool;
  apf_isSignatureItem : option bool;
}.

(** The entry after its constructor has run (defaults already filled in). *)
Record CraftingEntry := {
  selector : string;
  isAlchemical : bool;
  requiredTraits : list (list string);
  maxSlots : Z;
  fieldDiscovery : option string;
  batchSize : option Z;
  fieldDiscoveryBatchSize : option Z;
  maxItemLevel : Z;
  maxFieldDiscoveryItemLevel : option Z;
  preparedFormulas : list PreparedFormula;
}.

Definition set_preparedFormulas (l : list PreparedFormula) (e : CraftingEntry) : CraftingEntry :=
  {| selector := selector e; isAlchemical := isAlchemical e;
     requiredTraits := requiredTraits e; maxSlots := maxSlots e;
     fieldDiscovery := fieldDiscovery e; batchSize := batchSize e;
     fieldDiscoveryBatchSize := fieldDiscoveryBatchSize e;
     maxItemLevel := maxItemLevel e;
     maxFieldDiscoveryItemLevel := maxFieldDiscoveryItemLevel e;
     preparedFormulas := l |}.

(** Messages passed to [ui.notifications.warn], by localisation key. *)
Inductive Warning :=
| CharacterLevel
| MaxItemLevel
| ItemMissingTraits (required : list (list string)).

(** A call [parentActor.update({ "system.crafting.entries.<selector>.actorPreparedFormulas": v })]. *)
Record ActorUpdate := {
  upd_selector : string;
  upd_formulas : list ActorPreparedFormula;
}.

(** The entry together with what it can observe and affect: the level of
    the parent actor and the two logs (oldest call first). *)
Record World := {
  entry : CraftingEntry;
  actorLevel : Z;
  warnings : list Warning;
  updates : list ActorUpdate;
}.

Definition with_entry (e : CraftingEntry) (w : World) : World :=
  {| entry := e; actorLevel := actorLevel w;
     warnings := warnings w; updates := updates w |}.

Definition with_formulas (l : list PreparedFormula) (w : World) : World :=
  with_entry (set_preparedFormulas l (entry w)) w.

Definition warn (m : Warning) (w : World) : World :=
  {| entry := entry w; actorLevel := actorLevel w;
     warnings := warnings w ++ [m]; updates := updates w |}.

(** *** reagentCost *)

(** The set [options] built in the reducer: the item's traits, plus the
    consumable type when the item is a consumable. *)
Definition options (f : PreparedFormula) : gset string :=
  match consumableType (item f) with
  | Some ct => traits (item f) ∪ {[ ct ]}
  | None => traits (item f)
  end.

(** [options.has(this.fieldDiscovery!)] *)
Definition has_fieldDiscovery (e : CraftingEntry) (f : PreparedFormula) : bool :=
  match fieldDiscovery e with
  | Some fd => bool_decide (fd ∈ options f)
  | None => false
  end.

(** The condition of the conditional expression that selects the batch size. *)
Definition fieldDiscoveryEligible (e : CraftingEntry) (f : PreparedFormula) : bool :=
  match maxFieldDiscoveryItemLevel e with
  | None => true
  | Some m => bool_decide (level f ≤ m)
  end
  && (has_fieldDiscovery e f || flag (isSignatureItem f)).

Definition formulaBatchSize (e : CraftingEntry) (f : PreparedFormula) : Z :=
  if fieldDiscoveryEligible e f
  then or_default (fieldDiscoveryBatchSize e) 3
  else or_default (batchSize e) 2.

(** The addend of one prepared formula. *)
Definition formulaCost (e : CraftingEntry) (f : PreparedFormula) : Z :=
  ceil_div (or_default (quantity f) 1) (formulaBatchSize e f).

Definition reagentCost (e : CraftingEntry) : Z :=
  if isAlchemical e
  then foldl (λ sum f, sum + formulaCost e f) 0 (preparedFormulas e)
  else 0.

(** Eligibility for field discovery as the specification words it: the
    formula's item matches the entry's field-discovery trait or consumable
    type, or the formula is a signature item; and its level is within
    [maxFieldDiscoveryItemLevel] when that bound is set. *)
Definition FieldDiscoveryEligible (e : CraftingEntry) (f : PreparedFormula) : Prop :=
  ((∃ fd, fieldDiscovery e = Some fd ∧
          (fd ∈ traits (item f) ∨ consumableType (item f) = Some fd))
   ∨ isSignatureItem f = Some true)
  ∧ (∀ m, maxFieldDiscoveryItemLevel e = Some m → level f ≤ m).

(** *** checkEntryRequirements *)

Definition hasRequiredTraits (e : CraftingEntry) (f : PreparedFormula) : bool :=
  existsb (λ ts, forallb (λ t, bool_decide (t ∈ traits (item f))) ts)
          (requiredTraits e).

(** Returns the verdict and the world with any warning appended.  [warn_]
    is the [{ warn = true }] option. *)
Definition checkEntryRequirements (warn_ : bool) (f : PreparedFormula) (w : World)
  : bool * World :=
  let e := entry w in
  if truthy (maxSlots e) && bool_decide (maxSlots e ≤ Z.of_nat (length (preparedFormulas e)))
  then (false, w)
  else if bool_decide (actorLevel w < level f)
  then (false, if warn_ then warn CharacterLevel w else w)
  else if bool_decide (maxItemLevel e < level f)
  then (false, if warn_ then warn MaxItemLevel w else w)
  else if negb (hasRequiredTraits e f)
  then (false, if warn_ then warn (ItemMissingTraits (requiredTraits e)) w else w)
  else (true, w).

(** *** updateActorEntryFormulas *)

Definition toActorPrepared (f : PreparedFormula) : ActorPreparedFormula :=
  {| apf_itemUUID := uuid (item f); apf_quantity := quantity f;
     apf_expended := expended f; apf_isSignatureItem := isSignatureItem f |}.

Definition updateActorEntryFormulas (w : World) : World :=
  {| entry := entry w; actorLevel := actorLevel w; warnings := warnings w;
     updates := updates w ++
       [ {| upd_selector := selector (entry w);
            upd_formulas := toActorPrepared <$> preparedFormulas (entry w) |} ] |}.

(** *** prepareFormula *)

Definition same_uuid (u : string) (f : PreparedFormula) : Prop := formula_uuid f = u.

#[local] Instance same_uuid_dec u f : Decision (same_uuid u f) :=
  decide (formula_uuid f = u).

Definition prepareFormula (f : PreparedFormula) (w : World) : World :=
  (* the verdict of the check is not consulted *)
  let w1 := (checkEntryRequirements true f w).2 in
  let pf := preparedFormulas (entry w1) in
  let w2 :=
    match (if isAlchemical (entry w1) then list_find (same_uuid (formula_uuid f)) pf else None) with
    | Some (index, g) =>
        with_formulas (<[index := set_quantity (Some (or_default (quantity g) 1 + 1)) g]> pf) w1
    | None =>
        let prepData := if isAlchemical (entry w1) then set_quantity (Some 1) f else f in
        with_formulas (pf ++ [prepData]) w1
    end in
  updateActorEntryFormulas w2.

(** *** Operations addressed by slot index and item uuid *)

(** The common guard: [const prepData = this.preparedFormulas[index];
    if (!prepData || prepData.item.uuid !== itemUUID) return;] *)
Definition slot (w : World) (index : Z) (itemUUID : string) : option PreparedFormula :=
  match js_index (preparedFormulas (entry w)) index with
  | Some prepData => if decide (uuid (item prepData) = itemUUID) then Some prepData else None
  | None => None
  end.

(** [prepData.<field> = ...] on the object stored at [index]. *)
Definition write_slot (index : Z) (g : PreparedFormula) (w : World) : World :=
  with_formulas (<[Z.to_nat index := g]> (preparedFormulas (entry w))) w.

Definition unprepareFormula (index : Z) (itemUUID : string) (w : World) : World :=
  match slot w index itemUUID with
  | None => w
  | Some _ =>
      updateActorEntryFormulas
        (with_formulas (delete (Z.to_nat index) (preparedFormulas (entry w))) w)
  end.

Definition increaseFormulaQuantity (index : Z) (itemUUID : string) (w : World) : World :=
  match slot w index itemUUID with
  | None => w
  | Some prepData =>
      let q := match quantity prepData with
               | Some q => if truthy q then q + 1 else 2
               | None => 2
               end in
      updateActorEntryFormulas (write_slot index (set_quantity (Some q) prepData) w)
  end.

Definition decreaseFormulaQuantity (index : Z) (itemUUID : string) (w : World) : World :=
  match slot w index itemUUID with
  | None => w
  | Some prepData =>
      let q := match quantity prepData with
               | Some q => if truthy q then q - 1 else 0
               | None => 0
               end in
      let w1 := write_slot index (set_quantity (Some q) prepData) w in
      if bool_decide (q ≤ 0)
      then unprepareFormula index itemUUID w1
      else updateActorEntryFormulas w1
  end.

Definition setFormulaQuantity (index : Z) (itemUUID : string) (q : Z) (w : World) : World :=
  match slot w index itemUUID with
  | None => w
  | Some prepData =>
      let w1 := write_slot index (set_quantity (Some q) prepData) w in
      if bool_decide (q ≤ 0)
      then unprepareFormula index itemUUID w1
      else updateActorEntryFormulas w1
  end.

Definition toggleFormulaExpended (index : Z) (itemUUID : string) (w : World) : World :=
  match slot w index itemUUID with
  | None => w
  | Some prepData =>
      updateActorEntryFormulas
        (write_slot index (set_expended (Some (negb (flag (expended prepData)))) prepData) w)
  end.

Definition toggleSignatureItem (index : Z) (itemUUID : string) (w : World) : World :=
  match slot w index itemUUID with
  | None => w
  | Some prepData =>
      updateActorEntryFormulas
        (write_slot index
           (set_isSignatureItem (Some (negb (flag (isSignatureItem prepData)))) prepData) w)
  end.

(** *** The constructor *)

(** [CraftingEntryData], the stored description an entry is built from.
    [name], [isDailyPrep] and [isPrepared] are copied by the constructor
    and read by no method; they are left out of [CraftingEntry]. *)
Record CraftingEntryData := {
  data_actorPreparedFormulas : list ActorPreparedFormula;
  data_selector : string;
  data_name : string;
  data_isAlchemical : option bool;
  data_isDailyPrep : option bool;
  data_isPrepared : option bool;
  data_maxSlots : option Z;
  data_requiredTraits : option (list (list string));
  data_fieldDiscovery : option string;
  data_batchSize : option Z;
  data_fieldDiscoveryBatchSize : option Z;
  data_maxItemLevel : option Z;
  data_maxFieldDiscoveryItemLevel : option Z;
}.

(** [knownFormulas.find((formula) => formula.uuid === prepData.itemUUID)] *)
Definition findKnown (knownFormulas : list PreparedFormula) (itemUUID : string)
  : option PreparedFormula :=
  snd <$> list_find (same_uuid itemUUID) knownFormulas.

(** One step of the [map]: [Object.assign(new CraftingFormula(formula.item),
    {quantity, expended, isSignatureItem})], or [null] for an unknown uuid.
    A formula's level is read from its item, so the fresh formula has the
    level of the known one. *)
Definition loadPrepared (knownFormulas : list PreparedFormula) (prepData : ActorPreparedFormula)
  : option PreparedFormula :=
  (λ formula,
     {| item := item formula; level := level formula;
        quantity := apf_quantity prepData;
        expended := apf_expended prepData;
        isSignatureItem := apf_isSignatureItem prepData |})
  <$> findKnown knownFormulas (apf_itemUUID prepData).

(** [new CraftingEntry(parentActor, knownFormulas, data)], with the level
    of the parent actor in place of the actor. *)
Definition constructor (parentLevel : Z) (knownFormulas : list PreparedFormula)
           (data : CraftingEntryData) : CraftingEntry :=
  {| selector := data_selector data;
     isAlchemical := default false (data_isAlchemical data);
     requiredTraits :=
       (let requiredTraits := default [[]] (data_requiredTraits data) in
        if bool_decide (length requiredTraits = 0%nat) then requiredTraits ++ [[]]
        else requiredTraits);
     maxSlots := default 0 (data_maxSlots data);
     fieldDiscovery := data_fieldDiscovery data;
     batchSize := data_batchSize data;
     fieldDiscoveryBatchSize := data_fieldDiscoveryBatchSize data;
     maxItemLevel := or_default (data_maxItemLevel data) parentLevel;
     maxFieldDiscoveryItemLevel := data_maxFieldDiscoveryItemLevel data;
     preparedFormulas :=
       omap (loadPrepared knownFormulas) (data_actorPreparedFormulas data) |}.

(** The stored description with another array of prepared formulas, as
    the actor holds it once an update of [updateActorEntryFormulas] is in. *)
Definition with_actorPreparedFormulas (l : list ActorPreparedFormula) (d : CraftingEntryData)
  : CraftingEntryData :=
  {| data_actorPreparedFormulas := l;
     data_selector := data_selector d; data_name := data_name d;
     data_isAlchemical := data_isAlchemical d; data_isDailyPrep := data_isDailyPrep d;
     data_isPrepared := data_isPrepared d; data_maxSlots := data_maxSlots d;
     data_requiredTraits := data_requiredTraits d;
     data_fieldDiscovery := data_fieldDiscovery d; data_batchSize := data_batchSize d;
     data_fieldDiscoveryBatchSize := data_fieldDiscoveryBatchSize d;
     data_maxItemLevel := data_maxItemLevel d;
     data_maxFieldDiscoveryItemLevel := data_maxFieldDiscoveryItemLevel d |}.

(** *** The [formulas] getter *)

(** The prepared formulas followed by one [null] per free slot. *)
Definition formulas (e : CraftingEntry) : list (option PreparedFormula) :=
  let formulas := Some <$> preparedFormulas e in
  if bool_decide (0 < maxSlots e) then
    let fill := maxSlots e - Z.of_nat (length (preparedFormulas e)) in
    if bool_decide (0 < fill) then formulas ++ replicate (Z.to_nat fill) None
    else formulas
  else formulas.

(** *** Calls and invariants *)

(** One call of a method that edits the prepared formulas. *)
Inductive Call :=
| Prepare (formula : PreparedFormula)
| Unprepare (index : Z) (itemUUID : string)
| Increase (index : Z) (itemUUID : string)
| Decrease (index : Z) (itemUUID : string)
| SetQuantity (index : Z) (itemUUID : string) (quantity : Z)
| ToggleExpended (index : Z) (itemUUID : string)
| ToggleSignature (index : Z) (itemUUID : string).

Definition call (c : Call) (w : World) : World :=
  match c with
  | Prepare f => prepareFormula f w
  | Unprepare i u => unprepareFormula i u w
  | Increase i u => increaseFormulaQuantity i u w
  | Decrease i u => decreaseFormulaQuantity i u w
  | SetQuantity i u q => setFormulaQuantity i u q w
  | ToggleExpended i u => toggleFormulaExpended i u w
  | ToggleSignature i u => toggleSignatureItem i u w
  end.

(** The calls of a session, oldest first. *)
Definition calls (cs : list Call) (w : World) : World := foldl (λ w c, call c w) w cs.

(** What the entry would send to the actor now. *)
Definition currentUpdate (w : World) : ActorUpdate :=
  {| upd_selector := selector (entry w);
     upd_formulas := toActorPrepared <$> preparedFormulas (entry w) |}.

(** The actor has been told of the prepared formulas as they are: the
    last update sent carries them. *)
Definition Synced (w : World) : Prop := last (updates w) = Some (currentUpdate w).

(** A prepared formula is the known formula of its uuid (the first with
    that uuid, as [find] returns), up to the three preparation fields. *)
Definition Known (knownFormulas : list PreparedFormula) (f : PreparedFormula) : Prop :=
  ∃ g, findKnown knownFormulas (formula_uuid f) = Some g
       ∧ item g = item f ∧ level g = level f.

(** No stored quantity is zero or negative. *)
Definition PositiveQuantity (f : PreparedFormula) : Prop :=
  ∀ q, quantity f = Some q → 0 < q.

(** No other slot holds a formula of this uuid.  [prepareFormula] on an
    entry that is not alchemical pushes the object it is given, so an
    object prepared twice fills two slots and a write through one of them
    shows in the other.  Two slots that hold one object hold one uuid;
    under [SoleSlot] the object at [index] is therefore in that slot
    alone, and a write to it is the write to that slot that [write_slot]
    makes. *)
Definition SoleSlot (w : World) (index : Z) (itemUUID : string) : Prop :=
  ∀ j g, j ≠ Z.to_nat index →
         preparedFormulas (entry w) !! j = Some g → uuid (item g) ≠ itemUUID.

End Crafting.

(** ** The legacy actor class *)

Module Actor.

Record Ability := { abl_value : Z; abl_mod : Z }.

Record Save := {
  save_rank : Z;
  save_ability : string;
  save_item : Z;
  save_value : Z;
  save_breakdown : string;
}.

Record Martial := {
  martial_rank : Z;
  martial_value : Z;
  martial_breakdown : string;
}.

Record Skill := {
  skill_rank : Z;
  skill_ability : string;
  skill_item : Z;
  skill_armor : bool;
  skill_mod : Z;
  skill_value : Z;
  skill_breakdown : string;
}.

Record Perception := {
  perception_rank : Z;
  perception_ability : string;
  perception_item : Z;
  perception_value : Z;
  perception_breakdown : string;
}.

Record SpellDC := {
  spelldc_rank : Z;
  spelldc_item : Z;
  spelldc_value : Z;
  spelldc_dc : Z;
  spelldc_breakdown : string;
}.

Record HP := { hp_value : Z; hp_max : Z; hp_temp : Z }.

Record Attributes := {
  perception : Perception;
  spelldc : SpellDC;
  spellcasting_value : string;
  ac_check : option Z;
  hp : HP;
}.

Record Details := {
  level_value : Z;
  xp_value : Z;
  xp_max : Z;
  xp_pct : Qc;
}.

(** [trait.value] is either already an [Array] or a legacy string. *)
Inductive TraitValue :=
| TArray (selected : list string)
| TLegacy (raw : string).

Record Trait := { trait_value : TraitValue; trait_custom : string }.

Record Data := {
  abilities : gmap string Ability;
  saves : list (string * Save);
  martial : list (string * Martial);
  skills : list (string * Skill);
  attributes : Attributes;
  details : Details;
  traits : gmap string Trait;
}.

Record ActorData := { type : string; data : Data }.

(** *** Number helpers *)

(** [Math.round]: nearest integer, ties towards plus infinity. *)
Definition Math_round (x : Qc) : Z := Qfloor (x + Q2Qc (1 # 2))%Qc.

Definition Math_floor (x : Qc) : Z := Qfloor x.

Definition Math_min (a b : Qc) : Qc := if decide (a ≤ b)%Qc then a else b.

(** Foundry's [Math.clamped(num, min, max)], which is
    [Math.min(max, Math.max(num, min))]. *)
Definition Math_clamped (num min max : Z) : Z := Z.min max (Z.max num min).

(** [parseInt] applied to a number that already is an integer: the number
    is printed in decimal and read back. *)
Definition parseInt (z : Z) : Z := z.

(** The expression [rank ? (rank * 2) + level : 0] that every statistic
    of [_prepareCharacterData] starts with. *)
Definition proficiency (rank lvl : Z) : Z :=
  if truthy rank then rank * 2 + lvl else 0.

(** *** _prepareCharacterData *)

Definition prepareSave (abls : gmap string Ability) (lvl : Z) (save : Save) : option Save :=
  abl ← abls !! save_ability save;
  let proficiency := proficiency (save_rank save) lvl in
  Some {| save_rank := save_rank save;
          save_ability := save_ability save;
          save_item := save_item save;
          save_value := abl_mod abl + proficiency + save_item save;
          save_breakdown :=
            save_ability save +:+ " modifier(" +:+ pretty (abl_mod abl)
            +:+ ") + proficiency(" +:+ pretty proficiency
            +:+ ") + item bonus(" +:+ pretty (save_item save) +:+ ")" |}.

Definition prepareMartial (lvl : Z) (skl : Martial) : Martial :=
  let proficiency := proficiency (martial_rank skl) lvl in
  {| martial_rank := martial_rank skl;
     martial_value := proficiency;
     martial_breakdown := "proficiency(" +:+ pretty proficiency +:+ ")" |}.

Definition preparePerception (abls : gmap string Ability) (lvl : Z) (p : Perception)
  : option Perception :=
  abl ← abls !! perception_ability p;
  let proficiency := proficiency (perception_rank p) lvl in
  Some {| perception_rank := perception_rank p;
          perception_ability := perception_ability p;
          perception_item := perception_item p;
          perception_value := abl_mod abl + proficiency + perception_item p;
          perception_breakdown :=
            perception_ability p +:+ " modifier(" +:+ pretty (abl_mod abl)
            +:+ ") + proficiency(" +:+ pretty proficiency
            +:+ ") + item bonus(" +:+ pretty (perception_item p) +:+ ")" |}.

(** [data.attributes.spellcasting.value || "int"] *)
Definition spellAbl (a : Attributes) : string :=
  if decide (spellcasting_value a = "") then "int" else spellcasting_value a.

Definition prepareSpellDC (abls : gmap string Ability) (lvl : Z) (a : Attributes)
  : option SpellDC :=
  let d := spelldc a in
  let spellProficiency := proficiency (spelldc_rank d) lvl in
  abl ← abls !! spellAbl a;
  let value := abl_mod abl + spellProficiency + spelldc_item d in
  Some {| spelldc_rank := spelldc_rank d;
          spelldc_item := spelldc_item d;
          spelldc_value := value;
          spelldc_dc := value + 10;
          spelldc_breakdown :=
            "10 + " +:+ spellAbl a +:+ " modifier(" +:+ pretty (abl_mod abl)
            +:+ ") + proficiency(" +:+ pretty spellProficiency
            +:+ ") + item bonus(" +:+ pretty (spelldc_item d) +:+ ")" |}.

Definition prepareSkill (abls : gmap string Ability) (check : option Z) (lvl : Z) (skl : Skill)
  : option Skill :=
  let proficiency := proficiency (skill_rank skl) lvl in
  abl ← abls !! skill_ability skl;
  let base :=
    skill_ability skl +:+ " modifier(" +:+ pretty (abl_mod abl)
    +:+ ") + proficiency(" +:+ pretty proficiency
    +:+ ") + item bonus(" +:+ pretty (skill_item skl) +:+ ")" in
  if skill_armor skl then
    let armorCheckPenalty := or_default check 0 in
    Some {| skill_rank := skill_rank skl; skill_ability := skill_ability skl;
            skill_item := skill_item skl; skill_armor := skill_armor skl;
            skill_mod := abl_mod abl;
            skill_value := abl_mod abl + proficiency + skill_item skl + armorCheckPenalty;
            skill_breakdown :=
              base +:+ " + armor check penalty(" +:+ pretty armorCheckPenalty +:+ ")" |}
  else
    Some {| skill_rank := skill_rank skl; skill_ability := skill_ability skl;
            skill_item := skill_item skl; skill_armor := skill_armor skl;
            skill_mod := abl_mod abl;
            skill_value := abl_mod abl + proficiency + skill_item skl;
            skill_breakdown := base |}.

(** [for (let x of Object.values(obj)) { ...rewrite x... }] where the body
    may throw. *)
Definition forValues {A} (f : A → option A) (obj : list (string * A))
  : option (list (string * A)) :=
  mapM (λ kv, v ← f kv.2; Some (kv.1, v)) obj.

Definition prepareDetails (d : Details) : Details :=
  {| level_value := parseInt (level_value d);
     xp_value := xp_value d;
     xp_max := 1000;
     xp_pct := Math_min (Qc_of_Z (Math_round (Qc_of_Z (xp_value d) * Qc_of_Z 100 / Qc_of_Z 1000)%Qc))
                        (Q2Qc (995 # 10)) |}.

(** [None] stands for the [TypeError] raised when a statistic names an
    ability that the actor does not have. *)
Definition _prepareCharacterData (d : Data) : option Data :=
  let details' := prepareDetails (details d) in
  let lvl := level_value details' in
  let abls := abilities d in
  saves' ← forValues (prepareSave abls lvl) (saves d);
  let martial' := prod_map id (prepareMartial lvl) <$> martial d in
  perception' ← preparePerception abls lvl (perception (attributes d));
  spelldc' ← prepareSpellDC abls lvl (attributes d);
  skills' ← forValues (prepareSkill abls (ac_check (attributes d)) lvl) (skills d);
  Some {| abilities := abls;
          saves := saves';
          martial := martial';
          skills := skills';
          attributes :=
            {| perception := perception';
               spelldc := spelldc';
               spellcasting_value := spellcasting_value (attributes d);
               ac_check := ac_check (attributes d);
               hp := hp (attributes d) |};
          details := details';
          traits := traits d |}.

Definition _prepareNPCData (d : Data) : option Data := Some d.

(** *** prepareData *)

Definition prepareAbility (abl : Ability) : Ability :=
  {| abl_value := abl_value abl; abl_mod := (abl_value abl - 10) / 2 |}.

Definition with_abilities (abls : gmap string Ability) (d : Data) : Data :=
  {| abilities := abls; saves := saves d; martial := martial d; skills := skills d;
     attributes := attributes d; details := details d; traits := traits d |}.

Definition with_traits (ts : gmap string Trait) (d : Data) : Data :=
  {| abilities := abilities d; saves := saves d; martial := martial d; skills := skills d;
     attributes := attributes d; details := details d; traits := ts |}.

Section Host.

(** The option tables of [CONFIG] and the two functions of the host and
    of the trait selector that [prepareData] calls. *)
Variable Choices : Type.
Variables damageTypes conditionTypes languages : Choices.
Variable _backCompat : string → Choices → list string.
Variable super_prepareData : ActorData → ActorData.

Definition traitMap : list (string * Choices) :=
  [ ("dr", damageTypes); ("di", damageTypes); ("dv", damageTypes);
    ("ci", conditionTypes); ("languages", languages) ].

Definition migrateTrait (tc : string * Choices) (ts : gmap string Trait)
  : option (gmap string Trait) :=
  trait ← ts !! tc.1;
  match trait_value trait with
  | TArray _ => Some ts
  | TLegacy raw =>
      Some (<[tc.1 := {| trait_value := TArray (_backCompat raw tc.2);
                         trait_custom := trait_custom trait |}]> ts)
  end.

Fixpoint migrateTraits (m : list (string * Choices)) (ts : gmap string Trait)
  : option (gmap string Trait) :=
  match m with
  | [] => Some ts
  | tc :: m' => ts' ← migrateTrait tc ts; migrateTraits m' ts'
  end.

(** The body of [prepareData] after the call to the superclass. *)
Definition prepareOwnData (actorData : ActorData) : option ActorData :=
  let d := data actorData in
  let d1 := with_abilities (prepareAbility <$> abilities d) d in
  d2 ← (if decide (type actorData = "character") then _prepareCharacterData d1
        else if decide (type actorData = "npc") then _prepareNPCData d1
        else Some d1);
  ts ← migrateTraits traitMap (traits d2);
  Some {| type := type actorData; data := with_traits ts d2 |}.

Definition prepareData (actorData : ActorData) : option ActorData :=
  let actorData := super_prepareData actorData in
  prepareOwnData actorData.

End Host.

(** *** Source fields and derived fields *)

(** The stored document without what the preparation derives: the ability
    modifiers, the values and breakdowns of the statistics, the spell DC,
    and the experience bar.  Ranks, abilities, item bonuses, the level and
    the experience points are source fields and stay. *)
Definition sourceOfAbility (abl : Ability) : Ability :=
  {| abl_value := abl_value abl; abl_mod := 0 |}.

Definition sourceOfSave (s : Save) : Save :=
  {| save_rank := save_rank s; save_ability := save_ability s; save_item := save_item s;
     save_value := 0; save_breakdown := "" |}.

Definition sourceOfMartial (m : Martial) : Martial :=
  {| martial_rank := martial_rank m; martial_value := 0; martial_breakdown := "" |}.

Definition sourceOfSkill (s : Skill) : Skill :=
  {| skill_rank := skill_rank s; skill_ability := skill_ability s;
     skill_item := skill_item s; skill_armor := skill_armor s;
     skill_mod := 0; skill_value := 0; skill_breakdown := "" |}.

Definition sourceOfAttributes (a : Attributes) : Attributes :=
  {| perception :=
       {| perception_rank := perception_rank (perception a);
          perception_ability := perception_ability (perception a);
          perception_item := perception_item (perception a);
          perception_value := 0; perception_breakdown := "" |};
     spelldc :=
       {| spelldc_rank := spelldc_rank (spelldc a); spelldc_item := spelldc_item (spelldc a);
          spelldc_value := 0; spelldc_dc := 0; spelldc_breakdown := "" |};
     spellcasting_value := spellcasting_value a;
     ac_check := ac_check a;
     hp := hp a |}.

Definition sourceOfDetails (d : Details) : Details :=
  {| level_value := level_value d; xp_value := xp_value d; xp_max := 0; xp_pct := Q2Qc 0 |}.

Definition sourceOf (d : Data) : Data :=
  {| abilities := sourceOfAbility <$> abilities d;
     saves := prod_map id sourceOfSave <$> saves d;
     martial := prod_map id sourceOfMartial <$> martial d;
     skills := prod_map id sourceOfSkill <$> skills d;
     attributes := sourceOfAttributes (attributes d);
     details := sourceOfDetails (details d);
     traits := traits d |}.

(** What the trait migration makes of one entry, given the option table of
    its key. *)
Definition migratedTrait {Choices} (_backCompat : string → Choices → list string)
           (choices : Choices) (trait : Trait) : Trait :=
  match trait_value trait with
  | TArray _ => trait
  | TLegacy raw =>
      {| trait_value := TArray (_backCompat raw choices); trait_custom := trait_custom trait |}
  end.

(** *** applyDamage *)

(** The two keys of the update sent to one token's actor. *)
Record HpUpdate := { new_temp : Z; new_value : Z }.

Definition damageValue (rollTotal multiplier : Qc) : Z :=
  Math_floor (rollTotal * multiplier)%Qc.

Definition damageToken (value : Z) (hp : HP) : HpUpdate :=
  let tmp := parseInt (hp_temp hp) in
  let dt := if bool_decide (0 < value) then Z.min tmp value else 0 in
  {| new_temp := tmp - dt;
     new_value := Math_clamped (hp_value hp - (value - dt)) 0 (hp_max hp) |}.

(** One update per controlled token, in the order of [canvas.tokens.controlled]. *)
Definition applyDamage (rollTotal multiplier : Qc) (controlled : list HP) : list HpUpdate :=
  let value := damageValue rollTotal multiplier in
  damageToken value <$> controlled.

(** *** applyDamage on a stored document *)

(** [hp.temp] is read through [parseInt], and what a document holds there
    need not be a number: a sheet that was left empty stores the empty
    string or [null], and [parseInt] reads those as [NaN].  The
    definitions above take the field as the integer it usually is; the
    ones below take it as stored and carry [NaN] through the arithmetic
    the way JavaScript does. *)

(** A number as this code computes with it: an integer or [NaN]. *)
Inductive JsNumber :=
| Num (z : Z)
| NaN.

Module Stored.

(** [a - b], [Math.min(a, b)] and [Math.max(a, b)]: [NaN] as soon as one
    operand is. *)
Definition minus (a b : JsNumber) : JsNumber :=
  match a, b with
  | Num x, Num y => Num (x - y)
  | _, _ => NaN
  end.

Definition Math_min (a b : JsNumber) : JsNumber :=
  match a, b with
  | Num x, Num y => Num (Z.min x y)
  | _, _ => NaN
  end.

Definition Math_max (a b : JsNumber) : JsNumber :=
  match a, b with
  | Num x, Num y => Num (Z.max x y)
  | _, _ => NaN
  end.

(** Foundry's [Math.clamped(num, min, max)] is
    [Math.min(max, Math.max(num, min))]. *)
Definition Math_clamped (num min max : JsNumber) : JsNumber :=
  Math_min max (Math_max num min).

Section ParseInt.

(** [Raw] is whatever a document may hold at [hp.temp]; [parseInt] is the
    language's function on it, whose result is an integer or [NaN]. *)
Variable Raw : Type.
Variable parseInt : Raw → JsNumber.

Record HP := { hp_value : Z; hp_max : Z; hp_temp : Raw }.

(** The two keys of the update sent to one token's actor. *)
Record HpUpdate := { new_temp : JsNumber; new_value : JsNumber }.

Definition damageToken (value : Z) (hp : HP) : HpUpdate :=
  let tmp := parseInt (hp_temp hp) in
  let dt := if bool_decide (0 < value) then Math_min tmp (Num value) else Num 0 in
  {| new_temp := minus tmp dt;
     new_value := Math_clamped (minus (Num (hp_value hp)) (minus (Num value) dt))
                               (Num 0) (Num (hp_max hp)) |}.

(** One update per controlled token, in the order of [canvas.tokens.controlled]. *)
Definition applyDamage (rollTotal multiplier : Qc) (controlled : list HP) : list HpUpdate :=
  let value := damageValue rollTotal multiplier in
  damageToken value <$> controlled.

End ParseInt.

Arguments hp_value {Raw} _.
Arguments hp_max {Raw} _.
Arguments hp_temp {Raw} _.
Arguments Build_HP {Raw} _ _ _.
Arguments damageToken {Raw} parseInt value hp.
Arguments applyDamage {Raw} parseInt rollTotal multiplier controlled.

End Stored.

End Actor.

(** ** Item documents *)

Module Item.

(** The properties of an item that [getRollOptions] reads.  [slug] is
    [None] when [system.slug] is [null]; [traits] is [None] when the item
    type has no [system.traits]; [level] is [Some n] when ["level" in
    this.system], with [n] the number at [system.level.value]. *)
Record ItemDoc := {
  id : string;
  type : string;
  name : string;
  slug : option string;
  traits : option (list string);
  level : option Z;
  isFeature : bool;
  consumableType : string;
}.

(** [this.isOfType(...types)] for concrete (non-"physical") type names. *)
Definition isOfType (it : ItemDoc) (types : list string) : bool :=
  existsb (λ t, bool_decide (type it = t)) types.

Section RollOptions.

(** [sluggify] of the utility module. *)
Variable sluggify : string → string.

Definition getRollOptions (prefix_arg : option string) (it : ItemDoc) : list string :=
  let prefix := default (type it) prefix_arg in
  let slug := default (sluggify (name it)) (slug it) in
  let traits := default [] (traits it) in
  let traitOptions := (λ t, "trait:" +:+ t) <$> traits in
  let delimitedPrefix := if decide (prefix = "") then "" else prefix +:+ ":" in
  let options :=
    [ delimitedPrefix +:+ "id:" +:+ id it; delimitedPrefix +:+ slug ]
    ++ ((λ t, delimitedPrefix +:+ t) <$> traitOptions) in
  let options :=
    match level it with
    | Some n => options ++ [ delimitedPrefix +:+ "level:" +:+ pretty n ]
    | None => options
    end in
  let options :=
    if bool_decide (prefix ∈ ["item"; ""])
    then
      let itemType := if isOfType it ["feat"] && isFeature it then "feature" else type it in
      (delimitedPrefix +:+ "type:" +:+ itemType) :: options
    else options in
  if isOfType it ["consumable"]
  then options ++ [ delimitedPrefix +:+ "type:" +:+ consumableType it ]
  else options.

End RollOptions.

(** *** _preUpdate *)

(** A property of a change object: absent, [null], or set. *)
Inductive Nullable (A : Type) :=
| Undefined
| Null
| Value (a : A).
Arguments Undefined {A}.
Arguments Null {A}.
Arguments Value {A} a.

Section PreUpdate.

(** Whatever else the change object carries, at the top level, under
    [system] and under [system.description]. *)
Variable Rest : Type.

Record ChangedDescription := {
  desc_value : Nullable string;
  desc_rest : Rest;
}.

Record ChangedSystem := {
  description : option ChangedDescription;
  system_rest : Rest;
}.

Record Changed := {
  system : option ChangedSystem;
  changed_rest : Rest;
}.




(** The max hit points of the actor's clone after the change has been
    applied to the clone's copy of the item and the clone reset. *)
Variable cloneHpMax : Changed → Z.

(** [this.rules]: every rule element has an optional [preUpdate]
    callback, which may rewrite the change object. *)
Variable rules : list (option (Changed → Changed)).

(** What the hook has done when it returns: the change object as handed
    to [super._preUpdate], and the [system.attributes.hp.value] updates
    sent to the actor. *)
Record Outcome := {
  handedOn : Changed;
  hpUpdates : list Z;
}.


End PreUpdate.

Arguments desc_value {Rest} _.
Arguments desc_rest {Rest} _.
Arguments description {Rest} _.
Arguments system_rest {Rest} _.
Arguments system {Rest} _.
Arguments changed_rest {Rest} _.
Arguments handedOn {Rest} _.
Arguments hpUpdates {Rest} _.

(** *** deleteDocuments *)

(** [Array.from(new Set(ids))]: the first occurrence of every id, in
    order. *)
Fixpoint uniq (ids : list string) : list string :=
  match ids with
  | [] => []
  | id :: rest => id :: filter (λ x, x ≠ id) (uniq rest)
  end.

Section DeleteDocuments.

(** The pending items once every [ejectContents] and every rule element's
    [preDelete] callback has run (a callback may add to the array it is
    given), and the membership test of the actor's item collection at
    that point. *)
Variable preDelete : list ItemDoc → list ItemDoc.
Variable hasAfter : string → bool.

(** The ids handed to [super.deleteDocuments].  [items] is the actor's
    item collection by id, or [None] when the context has no parent. *)
Definition deleteDocuments (ids : list string) (items : option (gmap string ItemDoc))
  : list string :=
  let ids := uniq ids in
  match items with
  | Some actorItems =>
      let items := omap (λ id, actorItems !! id) ids in
      let items := preDelete items in
      filter (λ id, hasAfter id = true) (uniq (id <$> items))
  | None => ids
  end.

End DeleteDocuments.

(** *** _onDelete: attack effects of an NPC *)

(** A melee item of the actor: its id and [system.attackEffects.value]. *)
Record Melee := {
  melee_id : string;
  attackEffects : list string;
}.

(** An update of one melee item's [system.attackEffects.value]. *)
Record EffectsUpdate := {
  upd_id : string;
  upd_effects : list string;
}.

(** The loop over [this.actor.itemTypes.melee], the same in both branches. *)
Definition attackEffectUpdates (slug : string) (melee : list Melee) : list EffectsUpdate :=
  omap (λ attack,
          if bool_decide (slug ∈ attackEffects attack)
          then Some {| upd_id := melee_id attack;
                       upd_effects := filter (λ effect, effect ≠ slug) (attackEffects attack) |}
          else None)
       melee.

(** The actor as [_onDelete] sees it: [None] when the item has no actor or
    the deletion was made by another user. *)
Record DeleteContext := {
  isCreature : bool;
  canModify : bool;
  isNpc : bool;
  isToken : bool;
  meleeItems : list Melee;
}.

(** What [_onDelete] sends: the embedded item updates merged into the one
    actor update ([None] when there is no actor update at all, [Some []]
    when it carries no item updates), and the updates sent to items one
    by one.  What the rule elements' [onDelete] callbacks write into the
    actor update is theirs and is not recorded here. *)
Record DeleteOutcome := {
  actorUpdateItems : option (list EffectsUpdate);
  itemUpdatesSent : list EffectsUpdate;
}.

Section OnDelete.

Variable sluggify : string → string.

Definition _onDelete (it : ItemDoc) (ctx : option DeleteContext) : DeleteOutcome :=
  match ctx with
  | None => {| actorUpdateItems := None; itemUpdatesSent := [] |}
  | Some actor =>
      if negb (isCreature actor && canModify actor)
      then {| actorUpdateItems := None; itemUpdatesSent := [] |}
      else if isNpc actor && bool_decide (type it ∈ ["action"; "consumable"])
      then
        let slug := default (sluggify (name it)) (slug it) in
        if negb (isToken actor)
        then {| actorUpdateItems := Some (attackEffectUpdates slug (meleeItems actor));
                itemUpdatesSent := [] |}
        else {| actorUpdateItems := Some [];
                itemUpdatesSent := attackEffectUpdates slug (meleeItems actor) |}
      else {| actorUpdateItems := Some []; itemUpdatesSent := [] |}
  end.

End OnDelete.

(** *** toMessage: who sees the card *)

(** The modifier keys of the triggering event. *)
Record KeyEvent := { ctrlKey : bool; metaKey : bool }.

(** [whisper] (when set) and [blind] of the chat data. *)
Record Visibility := { whisper : option (list string); blind : bool }.

(** [rollMode] is the option passed in, [setting] the core roll mode
    setting and [gms] the ids of the GM users. *)
Definition messageVisibility (rollMode : option string) (event : option KeyEvent)
           (setting : string) (gms : list string) : Visibility :=
  let rollMode :=
    match rollMode with
    | Some m => m
    | None =>
        if match event with Some e => ctrlKey e || metaKey e | None => false end
        then "blindroll" else setting
    end in
  {| whisper := if bool_decide (rollMode ∈ ["gmroll"; "blindroll"]) then Some gms else None;
     blind := bool_decide (rollMode = "blindroll") |}.

End Item.

(** ** The settings menu *)

Module Settings.

Section Menu.

(** [PartialSettingsData], what a menu declares for one setting, and the
    type of setting values. *)
Variable SettingData : Type.
Variable Value : Type.

(** A registration as passed to [game.settings.register]: the declared
    data ([None] when [settings[setting]] is [undefined], which spreads to
    nothing), then [scope] and [config]. *)
Record Registration := {
  declared : option SettingData;
  scope : string;
  config : bool;
}.

(** The host's settings of module "pf2e": registrations and stored
    values by key.  [register] and [set] put an entry under the key, [get]
    reads it; a value may be [undefined]. *)
Record Host := {
  registered : gmap string Registration;
  stored : gmap string (option Value);
}.

(** The static side of a menu class. *)
Record Menu := {
  namespace : string;
  SETTINGS : list string;
  settings : list (string * SettingData);
}.

Definition settingKey (m : Menu) (key : string) : string := namespace m +:+ "." +:+ key.

(** [settings[setting]] *)
Definition declaredFor (m : Menu) (setting : string) : option SettingData :=
  (λ found, found.2.2) <$> list_find (λ kv, kv.1 = setting) (settings m).

Definition registerSettings (m : Menu) (h : Host) : Host :=
  foldl (λ h setting,
           {| registered :=
                <[settingKey m setting :=
                    {| declared := declaredFor m setting; scope := "world"; config := false |}]>
                  (registered h);
              stored := stored h |})
        h (SETTINGS m).

(** [data] is the submitted form: [data[key]] is [undefined] for a key it
    does not hold. *)
Definition _updateObject (m : Menu) (data : gmap string Value) (h : Host) : Host :=
  foldl (λ h key,
           {| registered := registered h;
              stored := <[settingKey m key := data !! key]> (stored h) |})
        h (SETTINGS m).

(** [!!setting.choices] and [setting.type === Boolean]. *)
Variable hasChoices : SettingData → bool.
Variable isBooleanType : SettingData → bool.

(** One row of the template data: the declared data, the key, the value
    read from the host and the two flags for the template. *)
Record Row := {
  row_setting : SettingData;
  row_key : string;
  row_value : option Value;
  isSelect : bool;
  isCheckbox : bool;
}.

Definition getData (m : Menu) (h : Host) : list Row :=
  (λ kv, {| row_setting := kv.2; row_key := kv.1;
            row_value := mjoin (stored h !! settingKey m kv.1);
            isSelect := hasChoices kv.2;
            isCheckbox := isBooleanType kv.2 |})
  <$> settings m.

End Menu.

Arguments declared {SettingData} _.
Arguments scope {SettingData} _.
Arguments config {SettingData} _.
Arguments registered {SettingData Value} _.
Arguments stored {SettingData Value} _.
Arguments namespace {SettingData} _.
Arguments SETTINGS {SettingData} _.
Arguments settings {SettingData} _.
Arguments settingKey {SettingData} _ _.
Arguments declaredFor {SettingData} _ _.
Arguments registerSettings {SettingData Value} _ _.
Arguments _updateObject {SettingData Value} _ _ _.
Arguments row_setting {SettingData Value} _.
Arguments row_key {SettingData Value} _.
Arguments row_value {SettingData Value} _.
Arguments isSelect {SettingData Value} _.
Arguments isCheckbox {SettingData Value} _.
Arguments getData {SettingData Value} _ _ _ _.

End Settings.

(** ** The perception macro *)

Module Macro.

(** A controlled token: the type and id of its actor, if it has one. *)
Record TokenActor := { actor_type : string; actor_id : string }.

Record Token := { token_actor : option TokenActor }.

(** A call [actor.attributes.perception.roll({ event, options })]. *)
Record PerceptionRoll := { roller : TokenActor; roll_options : list string }.

(** Either the error notification or the rolls, in order. *)
Inductive Outcome :=
| NotifyError (message : string)
| Rolled (rolls : list PerceptionRoll).

Definition perceptionForSelected (controlled : list Token) : Outcome :=
  let actors :=
    omap (λ t,
            match token_actor t with
            | Some a =>
                if bool_decide (actor_type a ∈ ["character"; "npc"; "familiar"])
                then Some a else None
            | None => None
            end)
         controlled in
  if bool_decide (length actors = 0%nat)
  then NotifyError "You must select at least one PC/NPC token."
  else Rolled ((λ a, {| roller := a; roll_options := ["secret"] |}) <$> actors).

End Macro.

(** ** Concrete data used in the examples below *)

Module Examples.
Import Crafting.

Definition elixir : ItemData :=
  {| uuid := "Item.elixir"; traits := {[ "alchemical"; "elixir" ]};
     consumableType := Some "elixir" |}.

Definition bomb : ItemData :=
  {| uuid := "Item.bomb"; traits := {[ "alchemical"; "bomb" ]};
     consumableType := None |}.

Definition formula (i : ItemData) (lvl : Z) (q : option Z) (sig : option bool)
  : PreparedFormula :=
  {| item := i; level := lvl; quantity := q; expended := None; isSignatureItem := sig |}.

(** An alchemist's entry with the default batch sizes. *)
Definition alchemist (fd : option string) (l : list PreparedFormula) : CraftingEntry :=
  {| selector := "alchemist"; isAlchemical := true; requiredTraits := [["alchemical"]];
     maxSlots := 0; fieldDiscovery := fd; batchSize := None;
     fieldDiscoveryBatchSize := None; maxItemLevel := 5;
     maxFieldDiscoveryItemLevel := Some 5; preparedFormulas := l |}.

(** A non-alchemical entry with a fixed number of slots. *)
Definition snares (slots : Z) (l : list PreparedFormula) : CraftingEntry :=
  {| selector := "snares"; isAlchemical := false; requiredTraits := [[]];
     maxSlots := slots; fieldDiscovery := None; batchSize := None;
     fieldDiscoveryBatchSize := None; maxItemLevel := 1;
     maxFieldDiscoveryItemLevel := None; preparedFormulas := l |}.

Definition world (e : CraftingEntry) (lvl : Z) : World :=
  {| entry := e; actorLevel := lvl; warnings := []; updates := [] |}.

(** A level-5 character as stored: the derived fields hold stale values. *)
Definition hero : Actor.ActorData :=
  {| Actor.type := "character";
     Actor.data :=
       {| Actor.abilities :=
            list_to_map
              [ ("str", {| Actor.abl_value := 18; Actor.abl_mod := 0 |});
                ("dex", {| Actor.abl_value := 12; Actor.abl_mod := 0 |});
                ("con", {| Actor.abl_value := 9; Actor.abl_mod := 7 |});
                ("int", {| Actor.abl_value := 10; Actor.abl_mod := 0 |});
                ("wis", {| Actor.abl_value := 11; Actor.abl_mod := 0 |}) ];
          Actor.saves :=
            [ ("fortitude", {| Actor.save_rank := 2; Actor.save_ability := "con";
                               Actor.save_item := 1; Actor.save_value := 0;
                               Actor.save_breakdown := "" |});
              ("reflex", {| Actor.save_rank := 0; Actor.save_ability := "dex";
                            Actor.save_item := 0; Actor.save_value := 3;
                            Actor.save_breakdown := "stale" |}) ];
          Actor.martial :=
            [ ("simple", {| Actor.martial_rank := 2; Actor.martial_value := 0;
                            Actor.martial_breakdown := "" |});
              ("martial", {| Actor.martial_rank := 0; Actor.martial_value := 0;
                             Actor.martial_breakdown := "" |}) ];
          Actor.skills :=
            [ ("acr", {| Actor.skill_rank := 1; Actor.skill_ability := "dex";
                         Actor.skill_item := 0; Actor.skill_armor := true;
                         Actor.skill_mod := 0; Actor.skill_value := 0;
                         Actor.skill_breakdown := "" |});
              ("arc", {| Actor.skill_rank := 0; Actor.skill_ability := "int";
                         Actor.skill_item := 2; Actor.skill_armor := false;
                         Actor.skill_mod := 0; Actor.skill_value := 0;
                         Actor.skill_breakdown := "" |}) ];
          Actor.attributes :=
            {| Actor.perception :=
                 {| Actor.perception_rank := 1; Actor.perception_ability := "wis";
                    Actor.perception_item := 0; Actor.perception_value := 0;
                    Actor.perception_breakdown := "" |};
               Actor.spelldc :=
                 {| Actor.spelldc_rank := 0; Actor.spelldc_item := 0;
                    Actor.spelldc_value := 0; Actor.spelldc_dc := 0;
                    Actor.spelldc_breakdown := "" |};
               Actor.spellcasting_value := "";
               Actor.ac_check := Some (-1);
               Actor.hp := {| Actor.hp_value := 40; Actor.hp_max := 56; Actor.hp_temp := 3 |} |};
          Actor.details :=
            {| Actor.level_value := 5; Actor.xp_value := 250;
               Actor.xp_max := 0; Actor.xp_pct := Q2Qc 0 |};
          Actor.traits :=
            list_to_map
              [ ("dr", {| Actor.trait_value := Actor.TLegacy "fire, cold";
                          Actor.trait_custom := "" |});
                ("di", {| Actor.trait_value := Actor.TArray []; Actor.trait_custom := "" |});
                ("dv", {| Actor.trait_value := Actor.TArray []; Actor.trait_custom := "" |});
                ("ci", {| Actor.trait_value := Actor.TArray []; Actor.trait_custom := "" |});
                ("languages", {| Actor.trait_value := Actor.TArray ["common"];
                                 Actor.trait_custom := "" |}) ] |} |}.

(** The same character with the "dv" entry of its traits missing. *)
Definition heroWithoutDv : Actor.ActorData :=
  {| Actor.type := Actor.type hero;
     Actor.data :=
       Actor.with_traits (delete "dv" (Actor.traits (Actor.data hero))) (Actor.data hero) |}.

(** The stored data once the ability modifiers are in, and the result of
    the character phase on it. *)
Definition heroAbilities : Actor.Data :=
  Actor.with_abilities (Actor.prepareAbility <$> Actor.abilities (Actor.data hero))
                       (Actor.data hero).

Definition heroCharacter : Actor.Data :=
  default heroAbilities (Actor._prepareCharacterData heroAbilities).

(** A token with 40 of 56 hit points and 3 temporary ones, and one whose
    maximum has been typed in as a negative number. *)
Definition wounded : Actor.HP :=
  {| Actor.hp_value := 40; Actor.hp_max := 56; Actor.hp_temp := 3 |}.

Definition negativeMax : Actor.HP :=
  {| Actor.hp_value := 5; Actor.hp_max := -1; Actor.hp_temp := 0 |}.

(** A stand-in for [parseInt] on a field that holds a whole number or has
    been left empty. *)
Definition parseField (raw : option Z) : Actor.JsNumber :=
  match raw with
  | Some z => Actor.Num z
  | None => Actor.NaN
  end.

(** The same two tokens as stored, and one whose temporary hit points have
    been left empty. *)
Definition woundedStored : Actor.Stored.HP (option Z) :=
  {| Actor.Stored.hp_value := 40; Actor.Stored.hp_max := 56;
     Actor.Stored.hp_temp := Some 3 |}.


Definition emptyTemp : Actor.Stored.HP (option Z) :=
  {| Actor.Stored.hp_value := 40; Actor.Stored.hp_max := 56;
     Actor.Stored.hp_temp := None |}.

(** The class feature of [packs/data/classfeatures.db/flames.json]: it has
    no [system.slug]. *)
Definition flames : Item.ItemDoc :=
  {| Item.id := "GTSvbFb36InvuH0w"; Item.type := "feat"; Item.name := "Flames";
     Item.slug := None; Item.traits := Some ["oracle"]; Item.level := Some 1;
     Item.isFeature := true; Item.consumableType := "" |}.

(** A stand-in for [sluggify] that only lowers ASCII capitals. *)
Definition lower (c : Ascii.ascii) : Ascii.ascii :=
  let n := Ascii.nat_of_ascii c in
  if bool_decide (65 ≤ n ≤ 90)%nat then Ascii.ascii_of_nat (n + 32) else c.

Fixpoint lowercase (s : string) : string :=
  match s with
  | EmptyString => EmptyString
  | String c s' => String (lower c) (lowercase s')
  end.


(** An NPC's melee attacks, two of which use the "grab" action, and the
    action. *)
Definition attacks : list Item.Melee :=
  [ {| Item.melee_id := "jaws"; Item.attackEffects := ["grab"; "poison"] |};
    {| Item.melee_id := "claw"; Item.attackEffects := [] |};
    {| Item.melee_id := "tail"; Item.attackEffects := ["knockdown"; "grab"] |} ].

Definition grab : Item.ItemDoc :=
  {| Item.id := "a1"; Item.type := "action"; Item.name := "Grab";
     Item.slug := Some "grab"; Item.traits := None; Item.level := None;
     Item.isFeature := false; Item.consumableType := "" |}.

Definition npc (token : bool) : Item.DeleteContext :=
  {| Item.isCreature := true; Item.canModify := true; Item.isNpc := true;
     Item.isToken := token; Item.meleeItems := attacks |}.

(** Stand-ins for the host in the examples: no option tables, a trait
    selector that keeps the legacy string as the single selected entry,
    and a superclass that returns the document it is given. *)
Definition backCompat1 (raw : string) (_ : unit) : list string := [raw].

Definition prepareHero : option Actor.ActorData :=
  Actor.prepareData unit tt tt tt backCompat1 (λ a, a) hero.

Definition heroPrepared : Actor.ActorData := default hero prepareHero.

End Examples.

(** * Properties *)

(** ** Arithmetic and indexing helpers *)

Lemma ceil_div_spec q b : 0 < b → b * (ceil_div q b - 1) < q ≤ b * ceil_div q b.
Proof.
  intros Hb. unfold ceil_div.
  pose proof (Z.div_mod (- q) b ltac:(lia)) as Hdm.
  pose proof (Z.mod_pos_bound (- q) b Hb) as Hm. nia.
Qed.

Lemma js_index_Some {A} (l : list A) i x :
  js_index l i = Some x ↔ 0 ≤ i ∧ l !! Z.to_nat i = Some x.
Proof. unfold js_index. destruct (decide (0 ≤ i)); naive_solver. Qed.

Lemma js_index_None {A} (l : list A) i :
  js_index l i = None ↔ i < 0 ∨ Z.of_nat (length l) ≤ i.
Proof.
  unfold js_index. destruct (decide (0 ≤ i)) as [Hi|Hi].
  - rewrite lookup_ge_None. split; [right|intros [?|?]]; lia.
  - split; [intros _; left; lia | done].
Qed.

Lemma sumZ_cons (x : Z) (l : list Z) : sumZ (x :: l) = x + sumZ l.
Proof. reflexivity. Qed.

Lemma foldl_add_sumZ {A} (g : A → Z) (l : list A) (acc : Z) :
  foldl (λ sum x, sum + g x) acc l = acc + sumZ (g <$> l).
Proof.
  revert acc. induction l as [|x l IH]; intros acc.
  - simpl. lia.
  - rewrite fmap_cons, sumZ_cons. cbn [foldl]. rewrite IH. lia.
Qed.

Lemma sumZ_app (l k : list Z) : sumZ (l ++ k) = sumZ l + sumZ k.
Proof.
  induction l as [|x l IH]; [done|].
  rewrite <- app_comm_cons, !sumZ_cons, IH. lia.
Qed.

(** ** Crafting entries *)

Section CraftingFacts.
Import Crafting.

(** The reducer adds one [formulaCost] per prepared formula. *)
Lemma reagentCost_sum (e : CraftingEntry) :
  isAlchemical e = true →
  reagentCost e = sumZ (formulaCost e <$> preparedFormulas e).
Proof.
  intros Ha. unfold reagentCost. rewrite Ha, foldl_add_sumZ. lia.
Qed.

Lemma formulaCost_set_preparedFormulas l e f :
  formulaCost (set_preparedFormulas l e) f = formulaCost e f.
Proof. reflexivity. Qed.

(** The condition in the code is the eligibility of the specification. *)
Lemma fieldDiscoveryEligible_iff (e : CraftingEntry) (f : PreparedFormula) :
  fieldDiscoveryEligible e f = true ↔ FieldDiscoveryEligible e f.
Proof.
  unfold fieldDiscoveryEligible, FieldDiscoveryEligible, has_fieldDiscovery, options, flag.
  rewrite andb_true_iff, orb_true_iff. split.
  - intros [Hlvl Hm]. split.
    + destruct Hm as [Hm | Hm].
      * left. destruct (fieldDiscovery e) as [fd|]; [|done].
        exists fd. split; [done|]. apply bool_decide_eq_true in Hm.
        destruct (consumableType (item f)) as [ct|]; [|by left].
        set_solver.
      * right. by destruct (isSignatureItem f) as [[]|].
    + intros m Hmax. rewrite Hmax in Hlvl. by apply bool_decide_eq_true in Hlvl.
  - intros [Hm Hlvl]. split.
    + destruct (maxFieldDiscoveryItemLevel e) as [m|]; [|done].
      apply bool_decide_eq_true. by apply Hlvl.
    + destruct Hm as [(fd & Hfd & Hin) | Hsig].
      * left. rewrite Hfd. apply bool_decide_eq_true.
        destruct Hin as [Hin | Hin]; [|rewrite Hin]; [|set_solver].
        destruct (consumableType (item f)); set_solver.
      * right. by rewrite Hsig.
Qed.

Lemma fieldDiscoveryEligible_false (e : CraftingEntry) (f : PreparedFormula) :
  ¬ FieldDiscoveryEligible e f → fieldDiscoveryEligible e f = false.
Proof.
  intros Hn. destruct (fieldDiscoveryEligible e f) eqn:E; [|done].
  by apply fieldDiscoveryEligible_iff in E.
Qed.

(** An entry without a field discovery has no eligible formula except its
    signature items. *)
Lemma no_fieldDiscovery_not_eligible (e : CraftingEntry) (f : PreparedFormula) :
  fieldDiscovery e = None → isSignatureItem f ≠ Some true →
  ¬ FieldDiscoveryEligible e f.
Proof. intros Hfd Hsig [[(fd & Hsome & _) | Hs] _]; congruence. Qed.

(** With batch size 2 and no field discovery set, the cost is not always
    the sum of ceil(quantity / 2): a signature item still gets the
    field-discovery batch, so three of them cost one reagent where
    ceil(3 / 2) is two; and a stored quantity of 0 counts as 1, so it costs
    one reagent where ceil(0 / 2) is none. *)
Lemma reagentCost_no_fieldDiscovery_not_sum :
  let entry_of l :=
    {| selector := "alchemist"; isAlchemical := true;
       requiredTraits := [["alchemical"]]; maxSlots := 0;
       fieldDiscovery := None; batchSize := Some 2;
       fieldDiscoveryBatchSize := Some 3; maxItemLevel := 5;
       maxFieldDiscoveryItemLevel := None; preparedFormulas := l |} in
  let signature := entry_of [Examples.formula Examples.bomb 1 (Some 3) (Some true)] in
  let zero := entry_of [Examples.formula Examples.bomb 1 (Some 0) None] in
  (reagentCost signature = 1
   ∧ sumZ ((λ f, ceil_div (default 1 (quantity f)) 2) <$> preparedFormulas signature) = 2)
  ∧ (reagentCost zero = 1
     ∧ sumZ ((λ f, ceil_div (default 1 (quantity f)) 2) <$> preparedFormulas zero) = 0).
Proof. cbv zeta. repeat split; reflexivity. Qed.

(** C3.  [reagentCost] is 0 for an entry that is not alchemical.  For an
    alchemical entry with batch size 2 none of whose prepared formulas is
    eligible for field discovery -- as when the entry has no field
    discovery and no prepared formula is a signature item -- it is the sum
    over the prepared formulas of ceil(quantity / 2), the quantity counting
    as 1 when it is absent or zero.  A prepared formula that is eligible
    for field discovery, in an alchemical entry with field-discovery batch
    size 3, contributes ceil(quantity / 3) whatever the entry's own batch
    size: 2 when its quantity is 4, and 1 when its quantity is 3, where
    the batch of 2 would give 2. *)
Theorem reagentCost_spec (e : CraftingEntry) :
  (isAlchemical e = false → reagentCost e = 0)
  ∧ (isAlchemical e = true →
     or_default (batchSize e) 2 = 2 →
     Forall (λ f, ¬ FieldDiscoveryEligible e f) (preparedFormulas e) →
     reagentCost e
     = sumZ ((λ f, ceil_div (or_default (quantity f) 1) 2) <$> preparedFormulas e))
  ∧ (isAlchemical e = true →
     or_default (batchSize e) 2 = 2 →
     fieldDiscovery e = None →
     Forall (λ f, isSignatureItem f ≠ Some true) (preparedFormulas e) →
     reagentCost e
     = sumZ ((λ f, ceil_div (or_default (quantity f) 1) 2) <$> preparedFormulas e))
  ∧ (∀ f, isAlchemical e = true →
     or_default (fieldDiscoveryBatchSize e) 3 = 3 →
     FieldDiscoveryEligible e f →
     formulaCost e f = ceil_div (or_default (quantity f) 1) 3
     ∧ (quantity f = Some 4 → formulaCost e f = 2 ∧ ceil_div 4 3 = 2)
     ∧ (quantity f = Some 3 → formulaCost e f = 1 ∧ ceil_div 3 2 = 2)
     ∧ reagentCost (set_preparedFormulas (preparedFormulas e ++ [f]) e)
       = reagentCost e + ceil_div (or_default (quantity f) 1) 3).
Proof.
  assert (∀ e : CraftingEntry, isAlchemical e = true →
     or_default (batchSize e) 2 = 2 →
     Forall (λ f, ¬ FieldDiscoveryEligible e f) (preparedFormulas e) →
     reagentCost e
     = sumZ ((λ f, ceil_div (or_default (quantity f) 1) 2) <$> preparedFormulas e))
    as Hplain.
  { clear e. intros e Ha Hb Hall. rewrite reagentCost_sum by done. f_equal.
    apply Forall_fmap_ext_1. eapply Forall_impl; [exact Hall|].
    intros f Hf. simpl. unfold formulaCost, formulaBatchSize.
    by rewrite (fieldDiscoveryEligible_false _ _ Hf), Hb. }
  split; [|split; [|split]].
  - intros Ha. unfold reagentCost. by rewrite Ha.
  - apply Hplain.
  - intros Ha Hb Hfd Hsig. apply Hplain; [done..|].
    eapply Forall_impl; [exact Hsig|].
    intros f Hf. simpl in Hf. by apply no_fieldDiscovery_not_eligible.
  - intros f Ha Hb Hel.
    assert (formulaCost e f = ceil_div (or_default (quantity f) 1) 3) as Hcost.
    { unfold formulaCost, formulaBatchSize.
      apply fieldDiscoveryEligible_iff in Hel. by rewrite Hel, Hb. }
    split; [done|]. split; [|split].
    + intros Hq. rewrite Hcost, Hq. done.
    + intros Hq. rewrite Hcost, Hq. done.
    + rewrite !reagentCost_sum by done.
      cbn [preparedFormulas set_preparedFormulas].
      rewrite fmap_app, sumZ_app, fmap_cons, fmap_nil, sumZ_cons.
      rewrite (list_fmap_ext _ (formulaCost e) (preparedFormulas e)) by done.
      rewrite formulaCost_set_preparedFormulas, Hcost. change (sumZ []) with 0. lia.
Qed.

Lemma reagentCost_spec_witness :
  reagentCost (Examples.snares 0 [Examples.formula Examples.elixir 1 (Some 4) None]) = 0
  ∧ reagentCost (Examples.alchemist None
                   [Examples.formula Examples.bomb 1 (Some 3) None;
                    Examples.formula Examples.elixir 1 None None]) = 3
  ∧ reagentCost (Examples.alchemist (Some "elixir")
                   [Examples.formula Examples.bomb 1 (Some 3) None;
                    Examples.formula Examples.elixir 1 (Some 4) None]) = 4
  ∧ Crafting.formulaCost (Examples.alchemist (Some "elixir") [])
      (Examples.formula Examples.elixir 1 (Some 3) None) = 1
  ∧ Crafting.formulaCost (Examples.alchemist (Some "elixir") [])
      (Examples.formula Examples.elixir 1 (Some 5) None) = 2
  ∧ reagentCost (Examples.alchemist (Some "elixir")
                   [Examples.formula Examples.bomb 1 (Some 3) None;
                    Examples.formula Examples.elixir 1 (Some 3) None]) = 3.
Proof.
  assert (∀ q, FieldDiscoveryEligible (Examples.alchemist (Some "elixir") [])
                 (Examples.formula Examples.elixir 1 q None)) as Hel0.
  { intros q. split.
    - left. exists "elixir". split; [reflexivity | right; reflexivity].
    - simpl. intros m Hm. injection Hm as <-. lia. }
  assert (∀ q, FieldDiscoveryEligible
                 (Examples.alchemist (Some "elixir")
                    [Examples.formula Examples.bomb 1 (Some 3) None])
                 (Examples.formula Examples.elixir 1 q None)) as Hel1.
  { intros q. split.
    - left. exists "elixir". split; [reflexivity | right; reflexivity].
    - simpl. intros m Hm. injection Hm as <-. lia. }
  split; [|split; [|split; [|split; [|split]]]].
  - apply (reagentCost_spec (Examples.snares 0 [Examples.formula Examples.elixir 1 (Some 4) None])).
    reflexivity.
  - apply (proj1 (proj2 (proj2 (reagentCost_spec (Examples.alchemist None
               [Examples.formula Examples.bomb 1 (Some 3) None;
                Examples.formula Examples.elixir 1 None None]))))).
    + reflexivity.
    + reflexivity.
    + reflexivity.
    + repeat constructor; simpl; congruence.
  - destruct (reagentCost_spec (Examples.alchemist (Some "elixir")
               [Examples.formula Examples.bomb 1 (Some 3) None])) as (_ & _ & _ & Hfd).
    destruct (Hfd (Examples.formula Examples.elixir 1 (Some 4) None)
                eq_refl eq_refl (Hel1 _)) as (_ & _ & _ & Hsum).
    exact Hsum.
  - destruct (reagentCost_spec (Examples.alchemist (Some "elixir") []))
      as (_ & _ & _ & Hfd).
    destruct (Hfd (Examples.formula Examples.elixir 1 (Some 3) None)
                eq_refl eq_refl (Hel0 _)) as (_ & _ & H3 & _).
    exact (proj1 (H3 eq_refl)).
  - destruct (reagentCost_spec (Examples.alchemist (Some "elixir") []))
      as (_ & _ & _ & Hfd).
    destruct (Hfd (Examples.formula Examples.elixir 1 (Some 5) None)
                eq_refl eq_refl (Hel0 _)) as (Hc & _).
    exact Hc.
  - destruct (reagentCost_spec (Examples.alchemist (Some "elixir")
               [Examples.formula Examples.bomb 1 (Some 3) None])) as (_ & _ & _ & Hfd).
    destruct (Hfd (Examples.formula Examples.elixir 1 (Some 3) None)
                eq_refl eq_refl (Hel1 _)) as (_ & _ & _ & Hsum).
    exact Hsum.
Defined.

(** *** The slot guard *)

Lemma slot_None (w : World) (index : Z) (itemUUID : string) :
  (js_index (preparedFormulas (entry w)) index = None
   ∨ ∃ g, js_index (preparedFormulas (entry w)) index = Some g ∧ uuid (item g) ≠ itemUUID)
  ↔ slot w index itemUUID = None.
Proof.
  unfold slot. destruct (js_index (preparedFormulas (entry w)) index) as [g|].
  - destruct (decide (uuid (item g) = itemUUID)) as [He|He].
    + split; [|done]. intros [?|(g' & Hg & Hne)]; [done|]. congruence.
    + split; [done|]. intros _. right. by exists g.
  - split; [done|]. by left.
Qed.

(** C10.  When the entry has no prepared formula at [index], or the one
    there has another uuid than [itemUUID], each of the six slot
    operations returns the world it was given: [preparedFormulas] is
    unchanged and nothing is added to the log of actor updates. *)
Theorem slot_operations_guarded (w : World) (index : Z) (itemUUID : string) (q : Z) :
  (js_index (preparedFormulas (entry w)) index = None
   ∨ ∃ g, js_index (preparedFormulas (entry w)) index = Some g ∧ uuid (item g) ≠ itemUUID) →
  unprepareFormula index itemUUID w = w
  ∧ increaseFormulaQuantity index itemUUID w = w
  ∧ decreaseFormulaQuantity index itemUUID w = w
  ∧ setFormulaQuantity index itemUUID q w = w
  ∧ toggleFormulaExpended index itemUUID w = w
  ∧ toggleSignatureItem index itemUUID w = w.
Proof.
  intros Hguard. apply slot_None in Hguard.
  unfold unprepareFormula, increaseFormulaQuantity, decreaseFormulaQuantity,
    setFormulaQuantity, toggleFormulaExpended, toggleSignatureItem.
  rewrite Hguard. repeat split.
Qed.

Lemma slot_operations_guarded_witness :
  let w := Examples.world (Examples.snares 2 [Examples.formula Examples.bomb 1 (Some 2) None]) 1 in
  (unprepareFormula 1 "Item.bomb" w = w ∧ setFormulaQuantity (-1) "Item.bomb" 5 w = w)
  ∧ (toggleFormulaExpended 0 "Item.elixir" w = w ∧ decreaseFormulaQuantity 0 "Item.elixir" w = w).
Proof.
  intros w. split.
  - pose proof (slot_operations_guarded w 1 "Item.bomb" 5 (or_introl eq_refl)) as H1.
    pose proof (slot_operations_guarded w (-1) "Item.bomb" 5 (or_introl eq_refl)) as H2.
    split; [apply H1 | apply H2].
  - assert (∃ g, js_index (preparedFormulas (entry w)) 0 = Some g
                 ∧ uuid (item g) ≠ "Item.elixir") as Hg.
    { eexists. split; [reflexivity|]. simpl. discriminate. }
    pose proof (slot_operations_guarded w 0 "Item.elixir" 0 (or_intror Hg)) as H.
    split; apply H.
Defined.

(** The guard is the only way out: with a matching slot every operation
    sends exactly one update to the actor. *)
Lemma slot_operations_commit (w : World) (index : Z) (itemUUID : string) (q : Z) g :
  slot w index itemUUID = Some g →
  length (updates (unprepareFormula index itemUUID w)) = S (length (updates w))
  ∧ length (updates (increaseFormulaQuantity index itemUUID w)) = S (length (updates w))
  ∧ length (updates (toggleFormulaExpended index itemUUID w)) = S (length (updates w))
  ∧ length (updates (toggleSignatureItem index itemUUID w)) = S (length (updates w)).
Proof.
  intros Hs.
  unfold unprepareFormula, increaseFormulaQuantity, toggleFormulaExpended, toggleSignatureItem.
  rewrite Hs. simpl. rewrite !length_app. simpl. lia.
Qed.

(** *** checkEntryRequirements and prepareFormula *)

(** The check looks at nothing but the warnings log. *)
Lemma checkEntryRequirements_frame (warn_ : bool) (f : PreparedFormula) (w : World) :
  entry (checkEntryRequirements warn_ f w).2 = entry w
  ∧ actorLevel (checkEntryRequirements warn_ f w).2 = actorLevel w
  ∧ updates (checkEntryRequirements warn_ f w).2 = updates w.
Proof.
  unfold checkEntryRequirements.
  repeat (match goal with |- context [if ?b then _ else _] => destruct b end); done.
Qed.

(** The verdict is [false] exactly when one of the four preconditions is
    violated. *)
Lemma checkEntryRequirements_false (warn_ : bool) (f : PreparedFormula) (w : World) :
  (checkEntryRequirements warn_ f w).1 = false
  ↔ (maxSlots (entry w) ≠ 0 ∧ maxSlots (entry w) ≤ Z.of_nat (length (preparedFormulas (entry w))))
    ∨ actorLevel w < level f
    ∨ maxItemLevel (entry w) < level f
    ∨ hasRequiredTraits (entry w) f = false.
Proof.
  unfold checkEntryRequirements, truthy.
  destruct (Z.eqb_spec (maxSlots (entry w)) 0) as [H0|H0]; simpl;
    repeat case_bool_decide; simpl;
    destruct (hasRequiredTraits (entry w) f); simpl; intuition (try lia; try done).
Qed.

(** A violated level or trait requirement is reported, unless the slots
    are full, in which case nothing is. *)
Lemma checkEntryRequirements_warns (f : PreparedFormula) (w : World) :
  (checkEntryRequirements true f w).1 = false →
  if truthy (maxSlots (entry w))
     && bool_decide (maxSlots (entry w) ≤ Z.of_nat (length (preparedFormulas (entry w))))
  then warnings (checkEntryRequirements true f w).2 = warnings w
  else ∃ m, warnings (checkEntryRequirements true f w).2 = warnings w ++ [m].
Proof.
  unfold checkEntryRequirements.
  destruct (truthy _ && _); [done|].
  repeat (match goal with |- context [if ?b then _ else _] => destruct b end);
    simpl; intros; by eauto.
Qed.

(** Whatever the check says, [prepareFormula] changes the prepared
    formulas and sends them to the actor. *)
Lemma prepareFormula_always_commits (f : PreparedFormula) (w : World) :
  preparedFormulas (entry (prepareFormula f w)) ≠ preparedFormulas (entry w)
  ∧ ∃ u, updates (prepareFormula f w) = updates w ++ [u].
Proof.
  unfold prepareFormula.
  destruct (checkEntryRequirements_frame true f w) as (He & _ & Hu).
  set (w1 := (checkEntryRequirements true f w).2) in *.
  rewrite <- He, <- Hu. clearbody w1. clear He Hu.
  split.
  - destruct (isAlchemical (entry w1)); [|simpl; intros H; apply (f_equal length) in H;
                                             rewrite length_app in H; simpl in H; lia].
    destruct (list_find _ _) as [[i g]|] eqn:Hfind; simpl.
    + apply list_find_Some in Hfind as (Hi & _ & _).
      intros H. apply (f_equal (λ l, l !! i)) in H.
      rewrite list_lookup_insert_eq in H by (by eapply lookup_lt_Some).
      rewrite Hi in H. injection H as H. apply (f_equal quantity) in H. simpl in H.
      unfold or_default, truthy in H. destruct (quantity g) as [q0|]; [|done].
      destruct (Z.eqb_spec q0 0); simpl in H; injection H as H; lia.
    + intros H; apply (f_equal length) in H. rewrite length_app in H; simpl in H; lia.
  - destruct (if isAlchemical (entry w1) then _ else _) as [[i g]|]; simpl; eauto.
Qed.

(** C1.  Two formulas that violate a precondition, run through the code.
    First: a level-5 formula offered to a level-1 actor, whose entry also
    caps items at level 1.  The check fails and warns, and the formula is
    prepared and sent to the actor all the same.  Second: an entry whose
    single slot is taken.  The check fails without any warning, and the
    formula is again prepared and sent to the actor. *)
Theorem prepareFormula_violation_not_aborted :
  let f := Examples.formula Examples.bomb 5 None None in
  let w := Examples.world (Examples.snares 0 []) 1 in
  let g := Examples.formula Examples.elixir 1 None None in
  let h := Examples.formula Examples.bomb 1 None None in
  let v := Examples.world (Examples.snares 1 [g]) 1 in
  ((checkEntryRequirements true f w).1 = false
   ∧ warnings (prepareFormula f w) = [CharacterLevel]
   ∧ preparedFormulas (entry (prepareFormula f w)) = [f]
   ∧ updates (prepareFormula f w)
     = [ {| upd_selector := "snares"; upd_formulas := [toActorPrepared f] |} ])
  ∧ ((checkEntryRequirements true h v).1 = false
     ∧ warnings (prepareFormula h v) = []
     ∧ preparedFormulas (entry (prepareFormula h v)) = [g; h]
     ∧ updates (prepareFormula h v)
       = [ {| upd_selector := "snares";
              upd_formulas := [toActorPrepared g; toActorPrepared h] |} ]).
Proof. repeat split. Qed.

End CraftingFacts.

(** ** Actor data preparation *)

Section ActorFacts.
Import Actor.

Example prepareHero_saves :
  (λ a, saves (data a)) <$> Examples.prepareHero
  = Some [ ("fortitude", {| save_rank := 2; save_ability := "con"; save_item := 1;
                            save_value := 9;
                            save_breakdown :=
                              "con modifier(-1) + proficiency(9) + item bonus(1)" |});
           ("reflex", {| save_rank := 0; save_ability := "dex"; save_item := 0;
                         save_value := 1;
                         save_breakdown :=
                           "dex modifier(1) + proficiency(0) + item bonus(0)" |}) ].
Proof. vm_compute. reflexivity. Qed.

Example prepareHero_skills :
  (λ a, skills (data a)) <$> Examples.prepareHero
  = Some [ ("acr", {| skill_rank := 1; skill_ability := "dex"; skill_item := 0;
                      skill_armor := true; skill_mod := 1; skill_value := 7;
                      skill_breakdown :=
                        "dex modifier(1) + proficiency(7) + item bonus(0) + armor check penalty(-1)" |});
           ("arc", {| skill_rank := 0; skill_ability := "int"; skill_item := 2;
                      skill_armor := false; skill_mod := 0; skill_value := 2;
                      skill_breakdown :=
                        "int modifier(0) + proficiency(0) + item bonus(2)" |}) ].
Proof. vm_compute. reflexivity. Qed.

(** [xp.pct]: 250 of 1000 is 25; 994 rounds to 99; 995 rounds to 100 and is
    capped at 99.5, like everything above. *)
Example xp_pct_values :
  (λ xp, this (xp_pct (prepareDetails
                         {| level_value := 5; xp_value := xp; xp_max := 0;
                            xp_pct := Q2Qc 0 |})))
    <$> [250; 994; 995; 1500; 0]
  = [25 # 1; 99 # 1; 199 # 2; 199 # 2; 0 # 1]%Q.
Proof. vm_compute. reflexivity. Qed.

(** *** What [_prepareCharacterData] returns *)

Lemma forValues_Some {A} (f : A → option A) (obj obj' : list (string * A)) :
  forValues f obj = Some obj' ↔
  Forall2 (λ kv kv', kv'.1 = kv.1 ∧ f kv.2 = Some kv'.2) obj obj'.
Proof.
  unfold forValues. rewrite mapM_Some.
  split; intros H; eapply Forall2_impl; try exact H; intros [k v] [k' v']; simpl.
  - destruct (f v) as [v0|]; simpl; [|done]. intros [= <- <-]. done.
  - intros [-> ->]. done.
Qed.

Lemma _prepareCharacterData_Some (d d' : Data) :
  _prepareCharacterData d = Some d' →
  let lvl := level_value (details d) in
  abilities d' = abilities d
  ∧ details d' = prepareDetails (details d)
  ∧ traits d' = traits d
  ∧ forValues (prepareSave (abilities d) lvl) (saves d) = Some (saves d')
  ∧ martial d' = prod_map id (prepareMartial lvl) <$> martial d
  ∧ preparePerception (abilities d) lvl (perception (attributes d))
    = Some (perception (attributes d'))
  ∧ prepareSpellDC (abilities d) lvl (attributes d) = Some (spelldc (attributes d'))
  ∧ forValues (prepareSkill (abilities d) (ac_check (attributes d)) lvl) (skills d)
    = Some (skills d')
  ∧ spellcasting_value (attributes d') = spellcasting_value (attributes d)
  ∧ ac_check (attributes d') = ac_check (attributes d)
  ∧ hp (attributes d') = hp (attributes d).
Proof.
  unfold _prepareCharacterData. intros H. simpl in *.
  destruct (forValues (prepareSave _ _) _) as [saves'|]; [|done]. simpl in H.
  destruct (preparePerception _ _ _) as [perception'|]; [|done]. simpl in H.
  destruct (prepareSpellDC _ _ _) as [spelldc'|]; [|done]. simpl in H.
  destruct (forValues (prepareSkill _ _ _) _) as [skills'|]; [|done]. simpl in H.
  injection H as <-. simpl. repeat split.
Qed.

(** The character phase fails only when a statistic names a missing
    ability. *)
Lemma _prepareCharacterData_total (d : Data) :
  Forall (λ kv, is_Some (abilities d !! save_ability kv.2)) (saves d) →
  Forall (λ kv, is_Some (abilities d !! skill_ability kv.2)) (skills d) →
  is_Some (abilities d !! perception_ability (perception (attributes d))) →
  is_Some (abilities d !! spellAbl (attributes d)) →
  is_Some (_prepareCharacterData d).
Proof.
  intros Hsaves Hskills [pa Hpa] [sa Hsa]. unfold _prepareCharacterData.
  assert (∀ {A} (f : A → option A) (l : list (string * A)),
             Forall (λ kv, is_Some (f kv.2)) l → is_Some (forValues f l)) as Hall.
  { intros A f l Hl. unfold forValues. apply mapM_is_Some.
    eapply Forall_impl; [exact Hl|]. intros [k v] [v' Hv]; simpl in *.
    rewrite Hv. by eexists. }
  destruct (Hall _ (prepareSave (abilities d) (level_value (prepareDetails (details d))))
              (saves d)) as [saves' ->].
  { eapply Forall_impl; [exact Hsaves|]. intros [k v] [a Ha]; simpl in *.
    unfold prepareSave. rewrite Ha. by eexists. }
  destruct (Hall _ (prepareSkill (abilities d) (ac_check (attributes d))
                      (level_value (prepareDetails (details d)))) (skills d))
    as [skills' ->].
  { eapply Forall_impl; [exact Hskills|]. intros [k v] [a Ha]; simpl in *.
    unfold prepareSkill. rewrite Ha. simpl. destruct (skill_armor v); by eexists. }
  unfold preparePerception, prepareSpellDC. rewrite Hpa, Hsa. simpl. by eexists.
Qed.

(** C4.  The character phase keeps the level [lvl], the abilities and the
    armor check penalty, and keeps every save, martial skill and skill
    under its key, in order, with its rank, ability, item bonus and armor
    flag, and likewise perception and the spell DC.  With [P rank]
    standing for 0 when [rank] is 0 and for [rank * 2 + lvl] otherwise:
    every martial skill gets the value [P rank] (and the breakdown says
    so); for every save, for perception, for the spell DC and for every
    skill, what the new value holds beyond the ability modifier, the item
    bonus and the armor check penalty is [P rank], and the breakdown of
    perception and of the spell DC shows it as the proficiency. *)
Theorem proficiency_term (d d' : Data) :
  _prepareCharacterData d = Some d' →
  let lvl := level_value (details d) in
  let P (rank : Z) := if decide (rank = 0) then 0 else rank * 2 + lvl in
  level_value (details d') = lvl
  ∧ abilities d' = abilities d
  ∧ ac_check (attributes d') = ac_check (attributes d)
  ∧ spellAbl (attributes d') = spellAbl (attributes d)
  ∧ Forall2 (λ kv kv', let s := kv.2 in let s' := kv'.2 in
       kv'.1 = kv.1
       ∧ save_rank s' = save_rank s
       ∧ save_ability s' = save_ability s
       ∧ save_item s' = save_item s
       ∧ ∃ abl, abilities d !! save_ability s = Some abl
                ∧ save_value s' - abl_mod abl - save_item s = P (save_rank s))
      (saves d) (saves d')
  ∧ Forall2 (λ kv kv', let m := kv.2 in let m' := kv'.2 in
       kv'.1 = kv.1
       ∧ martial_rank m' = martial_rank m
       ∧ martial_value m' = P (martial_rank m)
       ∧ martial_breakdown m'
         = "proficiency(" +:+ pretty (P (martial_rank m)) +:+ ")")
      (martial d) (martial d')
  ∧ (let p := perception (attributes d) in
     let p' := perception (attributes d') in
     perception_rank p' = perception_rank p
     ∧ perception_ability p' = perception_ability p
     ∧ perception_item p' = perception_item p
     ∧ ∃ abl, abilities d !! perception_ability p = Some abl
              ∧ perception_value p' - abl_mod abl - perception_item p
                = P (perception_rank p)
              ∧ perception_breakdown p'
                = perception_ability p +:+ " modifier(" +:+ pretty (abl_mod abl)
                  +:+ ") + proficiency(" +:+ pretty (P (perception_rank p))
                  +:+ ") + item bonus(" +:+ pretty (perception_item p) +:+ ")")
  ∧ (let s := spelldc (attributes d) in
     let s' := spelldc (attributes d') in
     spelldc_rank s' = spelldc_rank s
     ∧ spelldc_item s' = spelldc_item s
     ∧ ∃ abl, abilities d !! spellAbl (attributes d) = Some abl
              ∧ spelldc_value s' - abl_mod abl - spelldc_item s = P (spelldc_rank s)
              ∧ spelldc_dc s' = 10 + abl_mod abl + P (spelldc_rank s) + spelldc_item s
              ∧ spelldc_breakdown s'
                = "10 + " +:+ spellAbl (attributes d) +:+ " modifier("
                  +:+ pretty (abl_mod abl)
                  +:+ ") + proficiency(" +:+ pretty (P (spelldc_rank s))
                  +:+ ") + item bonus(" +:+ pretty (spelldc_item s) +:+ ")")
  ∧ Forall2 (λ kv kv', let s := kv.2 in let s' := kv'.2 in
       kv'.1 = kv.1
       ∧ skill_rank s' = skill_rank s
       ∧ skill_ability s' = skill_ability s
       ∧ skill_item s' = skill_item s
       ∧ skill_armor s' = skill_armor s
       ∧ ∃ abl, abilities d !! skill_ability s = Some abl
                ∧ skill_mod s' = abl_mod abl
                ∧ skill_value s' - abl_mod abl - skill_item s
                  - (if skill_armor s then or_default (ac_check (attributes d)) 0
                     else 0)
                  = P (skill_rank s))
      (skills d) (skills d').
Proof.
  intros H lvl P.
  apply _prepareCharacterData_Some in H
    as (Habl & Hdet & _ & Hsaves & Hmartial & Hperc & Hdc & Hskills & Hsc & Hac & _).
  fold lvl in Hsaves, Hmartial, Hperc, Hdc, Hskills.
  assert (∀ rank, proficiency rank lvl = P rank) as HP.
  { intros rank. unfold proficiency, truthy, P.
    destruct (Z.eqb_spec rank 0); by case_decide. }
  split; [by rewrite Hdet|]. split; [done|]. split; [done|].
  split; [unfold spellAbl; by rewrite Hsc|].
  split; [|split; [|split; [|split]]].
  - apply forValues_Some in Hsaves. eapply Forall2_impl; [exact Hsaves|].
    intros [k s] [k' s'] [Hk Hs]; simpl in *.
    unfold prepareSave in Hs. destruct (abilities d !! save_ability s) as [abl|] eqn:Ha;
      [|done]. injection Hs as <-. simpl. repeat (split; [done|]).
    exists abl. rewrite <- HP. split; [done | lia].
  - rewrite Hmartial. apply Forall2_fmap_r, Forall_Forall2_diag, Forall_forall.
    intros [k m] _; simpl. by rewrite HP.
  - unfold preparePerception in Hperc.
    destruct (abilities d !! _) as [abl|] eqn:Ha; [|done]. injection Hperc as <-. simpl.
    repeat (split; [done|]). exists abl. rewrite <- HP.
    split; [done|]. split; [lia | done].
  - unfold prepareSpellDC in Hdc.
    destruct (abilities d !! _) as [abl|] eqn:Ha; [|done]. injection Hdc as <-. simpl.
    repeat (split; [done|]). exists abl. rewrite <- HP.
    split; [done|]. split; [lia|]. split; [lia | done].
  - apply forValues_Some in Hskills. eapply Forall2_impl; [exact Hskills|].
    intros [k s] [k' s'] [Hk Hs]; simpl in *.
    unfold prepareSkill in Hs. destruct (abilities d !! skill_ability s) as [abl|] eqn:Ha;
      [|done]. simpl in Hs.
    destruct (skill_armor s) eqn:Harm; injection Hs as <-; simpl;
      repeat (split; [done|]); exists abl; rewrite <- HP;
      (split; [done|]); (split; [done | lia]).
Qed.

(** C5.  The character phase keeps every save and every skill under its
    key, in order, with its rank, ability, item bonus and armor flag.
    Every save gets the value ability modifier + proficiency + item bonus,
    and every skill that value plus the armor check penalty when its armor
    flag is set.  The new breakdown lists the same addends, each as a
    label followed by its number in brackets, joined by " + ", in the
    order ability modifier, proficiency, item bonus and, for a skill with
    the armor flag, armor check penalty. *)
Theorem value_and_breakdown (d d' : Data) :
  _prepareCharacterData d = Some d' →
  let lvl := level_value (details d) in
  let P (rank : Z) := if decide (rank = 0) then 0 else rank * 2 + lvl in
  let acp := or_default (ac_check (attributes d)) 0 in
  Forall2 (λ kv kv', let s := kv.2 in let s' := kv'.2 in
     kv'.1 = kv.1
     ∧ save_rank s' = save_rank s
     ∧ save_ability s' = save_ability s
     ∧ save_item s' = save_item s
     ∧ ∃ abl, abilities d !! save_ability s = Some abl
         ∧ save_value s' = abl_mod abl + P (save_rank s) + save_item s
         ∧ save_breakdown s'
           = save_ability s +:+ " modifier(" +:+ pretty (abl_mod abl)
             +:+ ") + proficiency(" +:+ pretty (P (save_rank s))
             +:+ ") + item bonus(" +:+ pretty (save_item s) +:+ ")")
    (saves d) (saves d')
  ∧ Forall2 (λ kv kv', let s := kv.2 in let s' := kv'.2 in
       kv'.1 = kv.1
       ∧ skill_rank s' = skill_rank s
       ∧ skill_ability s' = skill_ability s
       ∧ skill_item s' = skill_item s
       ∧ skill_armor s' = skill_armor s
       ∧ ∃ abl, abilities d !! skill_ability s = Some abl
           ∧ skill_value s'
             = abl_mod abl + P (skill_rank s) + skill_item s
               + (if skill_armor s then acp else 0)
           ∧ let three :=
               skill_ability s +:+ " modifier(" +:+ pretty (abl_mod abl)
               +:+ ") + proficiency(" +:+ pretty (P (skill_rank s))
               +:+ ") + item bonus(" +:+ pretty (skill_item s) +:+ ")" in
             skill_breakdown s'
             = if skill_armor s
               then three +:+ " + armor check penalty(" +:+ pretty acp +:+ ")"
               else three)
      (skills d) (skills d').
Proof.
  intros H lvl P acp.
  apply _prepareCharacterData_Some in H
    as (Habl & Hdet & _ & Hsaves & _ & _ & _ & Hskills & _ & Hac & _).
  fold lvl in Hsaves, Hskills.
  assert (∀ rank, proficiency rank lvl = P rank) as HP.
  { intros rank. unfold proficiency, truthy, P.
    destruct (Z.eqb_spec rank 0); by case_decide. }
  subst acp. split.
  - apply forValues_Some in Hsaves. eapply Forall2_impl; [exact Hsaves|].
    intros [k s] [k' s'] [Hk Hs]; simpl in *.
    unfold prepareSave in Hs. destruct (abilities d !! save_ability s) as [abl|] eqn:Ha;
      [|done]. injection Hs as <-. simpl. repeat (split; [done|]).
    exists abl. by rewrite <- HP.
  - apply forValues_Some in Hskills. eapply Forall2_impl; [exact Hskills|].
    intros [k s] [k' s'] [Hk Hs]; simpl in *.
    unfold prepareSkill in Hs. destruct (abilities d !! skill_ability s) as [abl|] eqn:Ha;
      [|done]. simpl in Hs.
    destruct (skill_armor s) eqn:Harm; injection Hs as <-; simpl;
      repeat (split; [done|]); exists abl; rewrite <- HP; (split; [done|]); split;
      rewrite ?Z.add_0_r; done.
Qed.

Lemma heroCharacter_eq :
  _prepareCharacterData Examples.heroAbilities = Some Examples.heroCharacter.
Proof. vm_compute. reflexivity. Qed.

Lemma proficiency_term_witness :
  let P (rank : Z) := if decide (rank = 0) then 0 else rank * 2 + 5 in
  Forall2 (λ kv kv', kv'.1 = kv.1
             ∧ ∃ abl, abilities Examples.heroAbilities !! save_ability kv.2 = Some abl
                      ∧ save_value kv'.2 - abl_mod abl - save_item kv.2
                        = P (save_rank kv.2))
    (saves Examples.heroAbilities) (saves Examples.heroCharacter)
  ∧ Forall2 (λ kv kv', kv'.1 = kv.1 ∧ martial_value kv'.2 = P (martial_rank kv.2))
      (martial Examples.heroAbilities) (martial Examples.heroCharacter)
  ∧ Forall2 (λ kv kv', kv'.1 = kv.1
               ∧ ∃ abl, abilities Examples.heroAbilities !! skill_ability kv.2 = Some abl
                        ∧ skill_value kv'.2 - abl_mod abl - skill_item kv.2
                          - (if skill_armor kv.2 then -1 else 0)
                          = P (skill_rank kv.2))
      (skills Examples.heroAbilities) (skills Examples.heroCharacter)
  ∧ (save_value <$> (saves Examples.heroCharacter).*2) = [9; 1]
  ∧ (martial_value <$> (martial Examples.heroCharacter).*2) = [9; 0]
  ∧ (skill_value <$> (skills Examples.heroCharacter).*2) = [7; 2]
  ∧ perception_value (perception (attributes Examples.heroCharacter)) = 7
  ∧ spelldc_dc (spelldc (attributes Examples.heroCharacter)) = 10.
Proof.
  destruct (proficiency_term Examples.heroAbilities Examples.heroCharacter
              ltac:(vm_compute; reflexivity))
    as (_ & _ & _ & _ & Hs & Hm & _ & _ & Hk).
  split; [|split; [|split]].
  - eapply Forall2_impl; [exact Hs|].
    intros kv kv' (Hkey & _ & _ & _ & abl & Ha & Hv). split; [exact Hkey|].
    exists abl. split; assumption.
  - eapply Forall2_impl; [exact Hm|].
    intros kv kv' (Hkey & _ & Hv & _). split; assumption.
  - eapply Forall2_impl; [exact Hk|].
    intros kv kv' (Hkey & _ & _ & _ & _ & abl & Ha & _ & Hv). split; [exact Hkey|].
    exists abl. split; assumption.
  - repeat split; reflexivity.
Defined.

Lemma value_and_breakdown_witness :
  let P (rank : Z) := if decide (rank = 0) then 0 else rank * 2 + 5 in
  Forall2 (λ kv kv', kv'.1 = kv.1
             ∧ ∃ abl, abilities Examples.heroAbilities !! save_ability kv.2 = Some abl
                      ∧ save_value kv'.2
                        = abl_mod abl + P (save_rank kv.2) + save_item kv.2)
    (saves Examples.heroAbilities) (saves Examples.heroCharacter)
  ∧ Forall2 (λ kv kv', kv'.1 = kv.1
               ∧ ∃ abl, abilities Examples.heroAbilities !! skill_ability kv.2 = Some abl
                        ∧ skill_value kv'.2
                          = abl_mod abl + P (skill_rank kv.2) + skill_item kv.2
                            + (if skill_armor kv.2 then -1 else 0))
      (skills Examples.heroAbilities) (skills Examples.heroCharacter)
  ∧ (save_breakdown <$> (saves Examples.heroCharacter).*2)
    = [ "con modifier(-1) + proficiency(9) + item bonus(1)";
        "dex modifier(1) + proficiency(0) + item bonus(0)" ]
  ∧ (skill_breakdown <$> (skills Examples.heroCharacter).*2)
    = [ "dex modifier(1) + proficiency(7) + item bonus(0) + armor check penalty(-1)";
        "int modifier(0) + proficiency(0) + item bonus(2)" ]
  ∧ (skill_value <$> (skills Examples.heroCharacter).*2) = [7; 2].
Proof.
  destruct (value_and_breakdown Examples.heroAbilities Examples.heroCharacter
              ltac:(vm_compute; reflexivity)) as (Hs & Hk).
  split; [|split].
  - eapply Forall2_impl; [exact Hs|].
    intros kv kv' (Hkey & _ & _ & _ & abl & Ha & Hv & _). split; [exact Hkey|].
    exists abl. split; assumption.
  - eapply Forall2_impl; [exact Hk|].
    intros kv kv' (Hkey & _ & _ & _ & _ & abl & Ha & Hv & _). split; [exact Hkey|].
    exists abl. split; assumption.
  - repeat split; reflexivity.
Defined.

(** *** Running the preparation again *)

Lemma prepareAbility_idem (abl : Ability) :
  prepareAbility (prepareAbility abl) = prepareAbility abl.
Proof. reflexivity. Qed.

Lemma prepareAbilities_idem (abls : gmap string Ability) :
  prepareAbility <$> (prepareAbility <$> abls) = prepareAbility <$> abls.
Proof. rewrite <- map_fmap_compose. by apply map_fmap_ext. Qed.

Lemma prepareDetails_idem (dt : Details) :
  prepareDetails (prepareDetails dt) = prepareDetails dt.
Proof. reflexivity. Qed.

Lemma forValues_idem {A} (f : A → option A) (obj obj' : list (string * A)) :
  (∀ x y, f x = Some y → f y = Some y) →
  forValues f obj = Some obj' → forValues f obj' = Some obj'.
Proof.
  intros Hf H. apply forValues_Some in H. apply forValues_Some.
  induction H as [|kv kv' l l' [_ Hkv] _ IH]; constructor; eauto.
Qed.

Lemma prepareSave_idem abls lvl (s s' : Save) :
  prepareSave abls lvl s = Some s' → prepareSave abls lvl s' = Some s'.
Proof.
  unfold prepareSave. destruct (abls !! save_ability s) as [abl|] eqn:Ha; [|done].
  intros [= <-]. simpl. by rewrite Ha.
Qed.

Lemma prepareSkill_idem abls check lvl (s s' : Skill) :
  prepareSkill abls check lvl s = Some s' → prepareSkill abls check lvl s' = Some s'.
Proof.
  unfold prepareSkill. destruct (abls !! skill_ability s) as [abl|] eqn:Ha; [|done].
  simpl. destruct (skill_armor s) eqn:Harm; intros [= <-]; simpl; by rewrite Ha.
Qed.

Lemma preparePerception_idem abls lvl (p p' : Perception) :
  preparePerception abls lvl p = Some p' → preparePerception abls lvl p' = Some p'.
Proof.
  unfold preparePerception. destruct (abls !! perception_ability p) as [abl|] eqn:Ha; [|done].
  intros [= <-]. simpl. by rewrite Ha.
Qed.

Lemma prepareMartial_idem lvl (l : list (string * Martial)) :
  prod_map id (prepareMartial lvl) <$> (prod_map id (prepareMartial lvl) <$> l)
  = prod_map id (prepareMartial lvl) <$> l.
Proof. rewrite <- list_fmap_compose. apply list_fmap_ext. by intros i [k m] _. Qed.

Lemma _prepareCharacterData_idem (d d' : Data) :
  _prepareCharacterData d = Some d' → _prepareCharacterData d' = Some d'.
Proof.
  intros H.
  apply _prepareCharacterData_Some in H
    as (Habl & Hdet & Htr & Hsaves & Hmartial & Hperc & Hdc & Hskills & Hsc & Hac & Hhp).
  apply (forValues_idem _ _ _ (prepareSave_idem _ _)) in Hsaves.
  apply (forValues_idem _ _ _ (prepareSkill_idem _ _ _)) in Hskills.
  apply preparePerception_idem in Hperc.
  unfold _prepareCharacterData.
  rewrite Habl, Hdet, prepareDetails_idem, Hac. cbv zeta.
  change (level_value (prepareDetails (details d))) with (level_value (details d)).
  rewrite Hsaves, Hskills, Hperc. simpl.
  assert (prepareSpellDC (abilities d) (level_value (details d)) (attributes d')
          = Some (spelldc (attributes d'))) as ->.
  { unfold prepareSpellDC in *.
    assert (spellAbl (attributes d') = spellAbl (attributes d)) as ->
        by (unfold spellAbl; by rewrite Hsc).
    destruct (abilities d !! spellAbl (attributes d)) as [abl|]; [|done].
    injection Hdc as Hdc. rewrite <- Hdc. reflexivity. }
  simpl. rewrite Hmartial, prepareMartial_idem, <- Hmartial, <- Habl, <- Hdet, <- Hac.
  destruct d' as [? ? ? ? [? ? ? ? ?] ? ?]. reflexivity.
Qed.

(** *** prepareData *)

Section WithHost.
Context (Choices : Type) (damageTypes conditionTypes languages : Choices)
        (_backCompat : string → Choices → list string)
        (super_prepareData : ActorData → ActorData).

Let own := prepareOwnData Choices damageTypes conditionTypes languages _backCompat.
Let prepare :=
  prepareData Choices damageTypes conditionTypes languages _backCompat super_prepareData.

Lemma prepareOwnData_Some (ad ad' : ActorData) :
  own ad = Some ad' →
  let d1 := with_abilities (prepareAbility <$> abilities (data ad)) (data ad) in
  ∃ d2,
    (if decide (type ad = "character") then _prepareCharacterData d1 else Some d1) = Some d2
    ∧ migrateTraits Choices _backCompat
        (traitMap Choices damageTypes conditionTypes languages) (traits d2)
      = Some (traits (data ad'))
    ∧ type ad' = type ad
    ∧ data ad' = with_traits (traits (data ad')) d2.
Proof.
  unfold own, prepareOwnData. intros H. cbv zeta.
  apply bind_Some in H as (d2 & Hphase & H).
  apply bind_Some in H as (ts & Hts & H).
  injection H as <-. exists d2. simpl. split; [|done].
  rewrite <- Hphase. unfold _prepareNPCData. by repeat case_decide.
Qed.

Lemma prepareOwnData_abilities (ad ad' : ActorData) :
  own ad = Some ad' →
  abilities (data ad') = prepareAbility <$> abilities (data ad).
Proof.
  intros H. apply prepareOwnData_Some in H as (d2 & Hphase & _ & _ & ->). simpl.
  case_decide.
  - by apply _prepareCharacterData_Some in Hphase as (-> & _).
  - by injection Hphase as <-.
Qed.


(** *** The trait migration *)

Local Abbreviation arrayAt ts k :=
  (∃ tr l, (ts : gmap string Trait) !! (k : string) = Some tr ∧ trait_value tr = TArray l).

Lemma migrateTrait_Some (tc : string * Choices) (ts ts' : gmap string Trait) :
  migrateTrait Choices _backCompat tc ts = Some ts' →
  arrayAt ts' tc.1
  ∧ (∀ k, arrayAt ts k → arrayAt ts' k)
  ∧ (∀ k, is_Some (ts !! k) → is_Some (ts' !! k)).
Proof.
  unfold migrateTrait. destruct (ts !! tc.1) as [tr|] eqn:Htr; [|done]. simpl.
  destruct (trait_value tr) as [l|raw] eqn:Hv; intros [= <-].
  - split; [by exists tr, l|]. done.
  - split; [|split].
    + eexists _, _. by rewrite lookup_insert_eq.
    + intros k (tr' & l' & Hk & Hl). destruct (decide (tc.1 = k)) as [<-|Hne].
      * eexists _, _. by rewrite lookup_insert_eq.
      * exists tr', l'. by rewrite lookup_insert_ne.
    + intros k Hk. destruct (decide (tc.1 = k)) as [<-|Hne].
      * rewrite lookup_insert_eq. by eexists.
      * by rewrite lookup_insert_ne.
Qed.

Lemma migrateTrait_fixed (tc : string * Choices) (ts : gmap string Trait) :
  arrayAt ts tc.1 → migrateTrait Choices _backCompat tc ts = Some ts.
Proof. intros (tr & l & Hk & Hl). unfold migrateTrait. by rewrite Hk; simpl; rewrite Hl. Qed.

Lemma migrateTraits_Some (m : list (string * Choices)) (ts ts' : gmap string Trait) :
  migrateTraits Choices _backCompat m ts = Some ts' →
  Forall (λ tc, arrayAt ts' tc.1) m ∧ (∀ k, arrayAt ts k → arrayAt ts' k).
Proof.
  revert ts. induction m as [|tc m IH]; intros ts H; simpl in H.
  - injection H as <-. by split.
  - apply bind_Some in H as (ts1 & H1 & H).
    apply migrateTrait_Some in H1 as (Hhere & Hkeep & _).
    apply IH in H as (Hall & Hkeep'). split; [|by auto].
    constructor; [by auto | done].
Qed.

Lemma migrateTraits_fixed (m : list (string * Choices)) (ts : gmap string Trait) :
  Forall (λ tc, arrayAt ts tc.1) m → migrateTraits Choices _backCompat m ts = Some ts.
Proof.
  induction 1 as [|tc m Hhere _ IH]; simpl; [done|].
  by rewrite (migrateTrait_fixed _ _ Hhere).
Qed.

Lemma migrateTraits_total (m : list (string * Choices)) (ts : gmap string Trait) :
  Forall (λ tc, is_Some (ts !! tc.1)) m →
  is_Some (migrateTraits Choices _backCompat m ts).
Proof.
  revert ts. induction m as [|tc m IH]; intros ts Hall; simpl; [by eexists|].
  apply Forall_cons in Hall as [[tr Hhere] Hall].
  destruct (migrateTrait Choices _backCompat tc ts) as [ts1|] eqn:H1.
  - simpl. apply IH. eapply Forall_impl; [exact Hall|].
    intros tc' Hk. by apply (migrateTrait_Some _ _ _ H1).
  - unfold migrateTrait in H1. rewrite Hhere in H1. simpl in H1.
    by destruct (trait_value tr).
Qed.

(** *** Idempotence *)

Lemma _prepareCharacterData_with_traits (ts : gmap string Trait) (d : Data) :
  _prepareCharacterData (with_traits ts d) = with_traits ts <$> _prepareCharacterData d.
Proof.
  unfold _prepareCharacterData. simpl.
  destruct (forValues (prepareSave _ _) _); [|done]. simpl.
  destruct (preparePerception _ _ _); [|done]. simpl.
  destruct (prepareSpellDC _ _ _); [|done]. simpl.
  by destruct (forValues (prepareSkill _ _ _) _).
Qed.

Lemma prepareOwnData_idem (ad ad' : ActorData) :
  own ad = Some ad' → own ad' = Some ad'.
Proof.
  intros H. pose proof (prepareOwnData_abilities _ _ H) as Habl.
  apply prepareOwnData_Some in H as (d2 & Hphase & Hts & Htype & Hdata).
  apply migrateTraits_Some in Hts as [Harr _]. apply migrateTraits_fixed in Harr.
  unfold own, prepareOwnData. cbv zeta.
  rewrite Habl, prepareAbilities_idem, <- Habl, Htype.
  assert (with_abilities (abilities (data ad')) (data ad') = data ad') as ->
      by (by destruct (data ad')).
  assert ((if decide (type ad = "character") then _prepareCharacterData (data ad')
           else if decide (type ad = "npc") then _prepareNPCData (data ad')
           else Some (data ad')) = Some (data ad')) as ->.
  { case_decide.
    - rewrite Hdata, _prepareCharacterData_with_traits.
      by rewrite (_prepareCharacterData_idem _ _ Hphase).
    - unfold _prepareNPCData. by case_decide. }
  cbn [mbind option_bind]. rewrite Harr. cbn [mbind option_bind]. rewrite <- Htype.
  destruct ad' as [ty [? ? ? ? ? ? ?]]. reflexivity.
Qed.

(** C2.  Preparing the data that a preparation returned gives back the
    same data: nothing is accumulated from one run to the next.  The
    superclass is only required to be idempotent itself and to neither
    read nor write what this class derives (it commutes with this class's
    part of the preparation). *)
Theorem prepareData_idempotent (ad ad' : ActorData) :
  (∀ a, super_prepareData (super_prepareData a) = super_prepareData a) →
  (∀ a a', own a = Some a' → own (super_prepareData a) = Some (super_prepareData a')) →
  prepare ad = Some ad' →
  prepare ad' = Some ad'.
Proof.
  unfold prepare, prepareData. fold own. intros Hidem Hcomm H.
  pose proof (Hcomm _ _ H) as Hs. rewrite Hidem, H in Hs. injection Hs as Hs.
  rewrite <- Hs. by apply (prepareOwnData_idem (super_prepareData ad)).
Qed.

(** The preparation returns (no [TypeError]) as soon as every ability a
    statistic names exists and the five trait entries are there. *)
Lemma prepareData_total (ad : ActorData) :
  let d := data (super_prepareData ad) in
  Forall (λ kv, is_Some (abilities d !! save_ability kv.2)) (saves d) →
  Forall (λ kv, is_Some (abilities d !! skill_ability kv.2)) (skills d) →
  is_Some (abilities d !! perception_ability (perception (attributes d))) →
  is_Some (abilities d !! spellAbl (attributes d)) →
  Forall (λ k, is_Some (traits d !! k)) ["dr"; "di"; "dv"; "ci"; "languages"] →
  is_Some (prepare ad).
Proof.
  intros d Hsaves Hskills Hperc Hdc Htraits.
  unfold prepare, prepareData, prepareOwnData. cbv zeta. fold d.
  set (d1 := with_abilities (prepareAbility <$> abilities d) d).
  assert (∀ k, is_Some (abilities d !! k) → is_Some (abilities d1 !! k)) as Hlift.
  { intros k [a Ha]. simpl. rewrite lookup_fmap, Ha. by eexists. }
  assert (∃ d2, (if decide (type (super_prepareData ad) = "character")
                 then _prepareCharacterData d1
                 else if decide (type (super_prepareData ad) = "npc")
                      then _prepareNPCData d1 else Some d1) = Some d2
                ∧ traits d2 = traits d) as (d2 & -> & Htr).
  { case_decide; [|unfold _prepareNPCData; case_decide; by exists d1].
    destruct (_prepareCharacterData_total d1) as [d2 Hd2].
    - eapply Forall_impl; [exact Hsaves|]. intros kv. apply Hlift.
    - eapply Forall_impl; [exact Hskills|]. intros kv. apply Hlift.
    - by apply Hlift.
    - by apply Hlift.
    - exists d2. split; [done|].
      by apply _prepareCharacterData_Some in Hd2 as (_ & _ & -> & _). }
  cbn [mbind option_bind]. rewrite Htr.
  destruct (migrateTraits_total (traitMap Choices damageTypes conditionTypes languages)
              (traits d)) as [ts ->]; [|by eexists].
  unfold traitMap. repeat (apply Forall_cons in Htraits as [? Htraits]).
  repeat constructor; done.
Qed.

End WithHost.


Lemma prepareData_idempotent_witness :
  Examples.prepareHero = Some Examples.heroPrepared
  ∧ prepareData unit tt tt tt Examples.backCompat1 (λ a, a) Examples.heroPrepared
    = Some Examples.heroPrepared.
Proof.
  assert (Examples.prepareHero = Some Examples.heroPrepared) as H
      by (vm_compute; reflexivity).
  split; [exact H|].
  apply (prepareData_idempotent unit tt tt tt Examples.backCompat1 (λ a, a) Examples.hero).
  - reflexivity.
  - intros a a' Ha. exact Ha.
  - exact H.
Defined.

End ActorFacts.

(** ** Damage application *)

Section DamageFacts.
Import Actor.

Lemma damageValue_floor (rollTotal multiplier : Qc) :
  (inject_Z (damageValue rollTotal multiplier) <= this (rollTotal * multiplier)%Qc)%Q
  ∧ (this (rollTotal * multiplier)%Qc < inject_Z (damageValue rollTotal multiplier + 1))%Q.
Proof. unfold damageValue, Math_floor. split; [apply Qfloor_le | apply Qlt_floor]. Qed.

Lemma Math_clamped_range (num lo hi : Z) : lo ≤ hi → lo ≤ Math_clamped num lo hi ≤ hi.
Proof. unfold Math_clamped. lia. Qed.

(** On a token whose temporary hit points are a number, the stored
    document is handled as the integer one is. *)
Lemma damageToken_number {Raw} (parseInt : Raw → JsNumber) (v : Z)
      (hp : Stored.HP Raw) (temp : Z) :
  parseInt (Stored.hp_temp hp) = Num temp →
  let u := damageToken v {| hp_value := Stored.hp_value hp;
                            hp_max := Stored.hp_max hp; hp_temp := temp |} in
  Stored.damageToken parseInt v hp
  = {| Stored.new_temp := Num (new_temp u); Stored.new_value := Num (new_value u) |}.
Proof.
  intros Htemp. unfold Stored.damageToken, damageToken, Actor.parseInt.
  rewrite Htemp. by case_bool_decide.
Qed.




End DamageFacts.

(** ** Item documents *)

Section ItemFacts.
Import Item.

Lemma append_assoc (a b c : string) : (a +:+ b) +:+ c = a +:+ b +:+ c.
Proof.
  induction a as [|x a IH]; [reflexivity|].
  change (String x ((a +:+ b) +:+ c) = String x (a +:+ b +:+ c)). by rewrite IH.
Qed.

(** C8.  Called without a prefix, on an item whose type is a (non-empty)
    type name, [getRollOptions] returns a list that contains
    "<type>:<slug>", where the slug is the item's own or else the
    sluggified name; "<type>:trait:<t>" for every trait [t] of the item;
    and "<type>:level:<n>" when the item has a level [n]. *)
Theorem getRollOptions_default (sluggify : string → string) (it : ItemDoc) :
  type it ≠ "" →
  let options := getRollOptions sluggify None it in
  (type it +:+ ":" +:+ default (sluggify (name it)) (slug it)) ∈ options
  ∧ Forall (λ t, (type it +:+ ":trait:" +:+ t) ∈ options) (default [] (traits it))
  ∧ (∀ n, level it = Some n → (type it +:+ ":level:" +:+ pretty n) ∈ options).
Proof.
  intros Hty options. subst options. unfold getRollOptions. cbn [default].
  destruct (decide (type it = "")) as [|_]; [done|].
  assert (∀ s, type it +:+ ":" +:+ s = (type it +:+ ":") +:+ s) as Hs
      by (intros s; by rewrite append_assoc).
  split; [|split].
  - rewrite Hs.
    destruct (level it); case_bool_decide; destruct (isOfType it ["consumable"]);
      set_solver.
  - apply Forall_forall. intros t Ht.
    change (type it +:+ ":trait:" +:+ t) with (type it +:+ ":" +:+ "trait:" +:+ t).
    rewrite Hs.
    assert (((type it +:+ ":") +:+ "trait:" +:+ t)
              ∈ ((λ t, (type it +:+ ":") +:+ t) <$>
                   ((λ t, "trait:" +:+ t) <$> default [] (traits it)))) as Hin.
    { rewrite <- list_fmap_compose. apply list_elem_of_fmap. by exists t. }
    destruct (level it); case_bool_decide; destruct (isOfType it ["consumable"]);
      set_solver.
  - intros n Hn. rewrite Hn.
    change (type it +:+ ":level:" +:+ pretty n)
      with (type it +:+ ":" +:+ "level:" +:+ pretty n).
    rewrite Hs.
    case_bool_decide; destruct (isOfType it ["consumable"]); set_solver.
Qed.

Lemma getRollOptions_default_witness :
  getRollOptions Examples.lowercase None Examples.flames
  = ["feat:id:GTSvbFb36InvuH0w"; "feat:flames"; "feat:trait:oracle"; "feat:level:1"]
  ∧ "feat:flames" ∈ getRollOptions Examples.lowercase None Examples.flames
  ∧ "feat:trait:oracle" ∈ getRollOptions Examples.lowercase None Examples.flames
  ∧ "feat:level:1" ∈ getRollOptions Examples.lowercase None Examples.flames.
Proof.
  split; [reflexivity|].
  destruct (getRollOptions_default Examples.lowercase Examples.flames)
    as (Hslug & Htraits & Hlevel); [simpl; discriminate|].
  split; [exact Hslug|]. split.
  - apply Forall_cons in Htraits as [Ht _]. exact Ht.
  - exact (Hlevel 1 eq_refl).
Defined.

(** *** _preUpdate *)





End ItemFacts.

(** * Further properties *)

(** ** Crafting entries: construction and display *)

Section CraftingConstruction.
Import Crafting.

Lemma findKnown_Some (known : list PreparedFormula) (u : string) (g : PreparedFormula) :
  findKnown known u = Some g → formula_uuid g = u ∧ g ∈ known.
Proof.
  unfold findKnown. destruct (list_find _ _) as [[i g']|] eqn:Hfind; [|done].
  intros [= <-]. apply list_find_Some in Hfind as (Hi & Hu & _).
  split; [done|]. by eapply list_elem_of_lookup_2.
Qed.

Lemma loadPrepared_toActorPrepared (known : list PreparedFormula) (f : PreparedFormula) :
  Known known f → loadPrepared known (toActorPrepared f) = Some f.
Proof.
  intros (g & Hg & Hitem & Hlevel). unfold loadPrepared. simpl.
  unfold formula_uuid in Hg. rewrite Hg. simpl. rewrite Hitem, Hlevel. by destruct f.
Qed.

Lemma loadPrepared_Some (known : list PreparedFormula) (a : ActorPreparedFormula)
      (f : PreparedFormula) :
  loadPrepared known a = Some f → Known known f ∧ toActorPrepared f = a.
Proof.
  unfold loadPrepared. destruct (findKnown known (apf_itemUUID a)) as [g|] eqn:Hg; [|done].
  intros [= <-]. apply findKnown_Some in Hg as Hu. destruct Hu as [Hu _].
  unfold formula_uuid in Hu. split.
  - exists g. unfold formula_uuid. simpl. by rewrite Hu.
  - unfold toActorPrepared. simpl. rewrite Hu. by destruct a.
Qed.

(** X1.  An entry rebuilt from the array that [updateActorEntryFormulas]
    sends has the prepared formulas the array was made from, provided each
    of them is the known formula of its uuid. *)
Theorem constructor_reload (parentLevel : Z) (known : list PreparedFormula)
        (d : CraftingEntryData) (pf : list PreparedFormula) :
  Forall (Known known) pf →
  preparedFormulas
    (constructor parentLevel known (with_actorPreparedFormulas (toActorPrepared <$> pf) d))
  = pf.
Proof.
  intros Hknown. simpl. induction Hknown as [|f pf Hf _ IH]; [done|].
  rewrite fmap_cons. cbn [omap list_omap].
  rewrite (loadPrepared_toActorPrepared _ _ Hf). by f_equal.
Qed.

Lemma constructor_reload_witness :
  let known := [Examples.formula Examples.bomb 1 None None;
                Examples.formula Examples.elixir 3 None None] in
  let pf := [Examples.formula Examples.elixir 3 (Some 4) (Some true)] in
  preparedFormulas
    (constructor 5 known
       {| data_actorPreparedFormulas := toActorPrepared <$> pf;
          data_selector := "alchemist"; data_name := "Alchemist";
          data_isAlchemical := Some true; data_isDailyPrep := None;
          data_isPrepared := None; data_maxSlots := None;
          data_requiredTraits := None; data_fieldDiscovery := None;
          data_batchSize := None; data_fieldDiscoveryBatchSize := None;
          data_maxItemLevel := None; data_maxFieldDiscoveryItemLevel := None |})
  = pf.
Proof.
  intros known pf.
  apply (constructor_reload 5 known
           {| data_actorPreparedFormulas := [];
              data_selector := "alchemist"; data_name := "Alchemist";
              data_isAlchemical := Some true; data_isDailyPrep := None;
              data_isPrepared := None; data_maxSlots := None;
              data_requiredTraits := None; data_fieldDiscovery := None;
              data_batchSize := None; data_fieldDiscoveryBatchSize := None;
              data_maxItemLevel := None; data_maxFieldDiscoveryItemLevel := None |} pf).
  apply Forall_cons; split; [|apply Forall_nil_2].
  exists (Examples.formula Examples.elixir 3 None None). repeat split.
Defined.

(** X2.  The constructor keeps the stored entries whose uuid is among the
    known formulas and drops the others: every prepared formula is the
    known formula of its uuid, and what the entry would send back to the
    actor is the stored array without the entries of unknown uuid, in the
    stored order.  It also leaves no entry without a list of required
    traits, and takes the actor's level as the item level cap when none
    (or 0) is stored. *)
Theorem constructor_known (parentLevel : Z) (known : list PreparedFormula)
        (d : CraftingEntryData) :
  let e := constructor parentLevel known d in
  Forall (Known known) (preparedFormulas e)
  ∧ toActorPrepared <$> preparedFormulas e
    = filter (λ a, is_Some (findKnown known (apf_itemUUID a))) (data_actorPreparedFormulas d)
  ∧ requiredTraits e ≠ []
  ∧ maxItemLevel e = or_default (data_maxItemLevel d) parentLevel.
Proof.
  simpl. split; [|split; [|split; [|done]]].
  - apply Forall_forall. intros f Hf. apply list_elem_of_omap in Hf as (a & _ & Ha).
    by apply loadPrepared_Some in Ha as [? _].
  - induction (data_actorPreparedFormulas d) as [|a l IH]; [done|].
    cbn [omap list_omap]. rewrite filter_cons.
    destruct (loadPrepared known a) as [f|] eqn:Hf.
    + pose proof (loadPrepared_Some _ _ _ Hf) as [_ Ha].
      unfold loadPrepared in Hf.
      destruct (findKnown known (apf_itemUUID a)); [|done].
      rewrite decide_True by (by eexists). rewrite fmap_cons, IH. by f_equal.
    + unfold loadPrepared in Hf.
      destruct (findKnown known (apf_itemUUID a)); [done|].
      rewrite decide_False by (by intros [? ?]). done.
  - destruct (data_requiredTraits d) as [[|ts rt]|]; simpl; done.
Qed.

Lemma formulas_closed_form (e : CraftingEntry) :
  formulas e
  = (Some <$> preparedFormulas e)
    ++ replicate (Z.to_nat (maxSlots e - Z.of_nat (length (preparedFormulas e)))) None.
Proof.
  unfold formulas. repeat case_bool_decide.
  - done.
  - replace (Z.to_nat _) with 0%nat by lia. by rewrite app_nil_r.
  - replace (Z.to_nat _) with 0%nat by lia. by rewrite app_nil_r.
Qed.

(** X3.  The [formulas] getter shows the prepared formulas, in order,
    followed by one [null] for each slot that is left, and by none when the
    entry has no slot limit or is over it.  Dropping the [null]s gives the
    prepared formulas back. *)
Theorem formulas_spec (e : CraftingEntry) :
  formulas e
  = (Some <$> preparedFormulas e)
    ++ replicate (Z.to_nat (maxSlots e - Z.of_nat (length (preparedFormulas e)))) None
  ∧ omap id (formulas e) = preparedFormulas e
  ∧ Z.of_nat (length (formulas e))
    = Z.max (Z.of_nat (length (preparedFormulas e))) (maxSlots e).
Proof.
  pose proof (formulas_closed_form e) as Heq.
  split; [exact Heq|]. rewrite Heq. split.
  - rewrite omap_app.
    assert (∀ n, omap id (replicate n (@None PreparedFormula)) = []) as ->
        by (intros n; induction n; done).
    rewrite app_nil_r. clear Heq. induction (preparedFormulas e) as [|f l IH]; [done|].
    rewrite fmap_cons. cbn [omap list_omap]. simpl. by f_equal.
  - rewrite length_app, length_fmap, length_replicate. lia.
Qed.

(** X4.  For an entry with a slot limit and a formula that meets the level
    and trait requirements, [checkEntryRequirements] accepts the formula
    exactly when the [formulas] getter shows a free slot. *)
Theorem free_slot_iff_accepted (warn_ : bool) (f : PreparedFormula) (w : World) :
  maxSlots (entry w) ≠ 0 →
  level f ≤ actorLevel w →
  level f ≤ maxItemLevel (entry w) →
  hasRequiredTraits (entry w) f = true →
  (checkEntryRequirements warn_ f w).1 = true ↔ None ∈ formulas (entry w).
Proof.
  intros Hslots Hlvl Hmax Htraits.
  rewrite formulas_closed_form.
  rewrite elem_of_app, elem_of_replicate, list_elem_of_fmap.
  split.
  - intros Hok. right. split; [done|].
    destruct ((checkEntryRequirements warn_ f w).1) eqn:Hv; [|done].
    assert (¬ (maxSlots (entry w) ≠ 0
               ∧ maxSlots (entry w) ≤ Z.of_nat (length (preparedFormulas (entry w))))) as Hn.
    { intros Hfull. assert ((checkEntryRequirements warn_ f w).1 = false) as Hfalse
          by (apply checkEntryRequirements_false; by left).
      congruence. }
    lia.
  - intros [(g & Hg & _) | [_ Hfree]]; [done|].
    destruct ((checkEntryRequirements warn_ f w).1) eqn:Hv; [done|].
    apply checkEntryRequirements_false in Hv as [[_ Hfull] | [? | [? | ?]]];
      [lia | lia | lia | congruence].
Qed.

Lemma free_slot_iff_accepted_witness :
  let f := Examples.formula Examples.bomb 1 None None in
  let w := Examples.world (Examples.snares 2 [Examples.formula Examples.elixir 1 None None]) 1 in
  (checkEntryRequirements true f w).1 = true ∧ None ∈ formulas (entry w).
Proof.
  intros f w.
  assert ((checkEntryRequirements true f w).1 = true) as H by reflexivity.
  split; [exact H|].
  apply (free_slot_iff_accepted true f w); [simpl; lia | simpl; lia | simpl; lia
                                           | reflexivity | exact H].
Defined.

End CraftingConstruction.

(** ** Crafting entries: sequences of calls *)

Section CraftingCalls.
Import Crafting.

(** The entry apart from its prepared formulas. *)
Local Abbreviation config e := (set_preparedFormulas [] e).

Lemma slot_Some (w : World) (index : Z) (itemUUID : string) (g : PreparedFormula) :
  slot w index itemUUID = Some g ↔
  0 ≤ index ∧ preparedFormulas (entry w) !! Z.to_nat index = Some g
  ∧ uuid (item g) = itemUUID.
Proof.
  unfold slot. destruct (js_index _ _) as [g'|] eqn:Hi.
  - apply js_index_Some in Hi as [H0 Hi]. case_decide; naive_solver.
  - split; [done|]. intros (H0 & Hg & _).
    assert (js_index (preparedFormulas (entry w)) index = Some g) as Hi'
        by (by apply js_index_Some).
    congruence.
Qed.

Lemma slot_write_slot (w : World) (index : Z) (itemUUID : string) (g g' : PreparedFormula) :
  slot w index itemUUID = Some g → item g' = item g →
  slot (write_slot index g' w) index itemUUID = Some g'.
Proof.
  intros Hs Hitem. apply slot_Some in Hs as (H0 & Hi & Hu). apply slot_Some.
  split; [done|]. split; [|congruence]. simpl.
  apply list_lookup_insert_eq. by eapply lookup_lt_Some.
Qed.

Lemma delete_insert_same {A} (l : list A) (i : nat) (x : A) :
  delete i (<[i:=x]> l) = delete i l.
Proof.
  revert i. induction l as [|y l IH]; intros [|i]; simpl; [done..|]. by rewrite IH.
Qed.

Lemma unprepareFormula_write_slot (w : World) (index : Z) (itemUUID : string)
      (g g' : PreparedFormula) :
  slot w index itemUUID = Some g → item g' = item g →
  unprepareFormula index itemUUID (write_slot index g' w) = unprepareFormula index itemUUID w.
Proof.
  intros Hs Hitem. unfold unprepareFormula.
  rewrite (slot_write_slot _ _ _ _ _ Hs Hitem), Hs.
  unfold updateActorEntryFormulas, with_formulas, with_entry; simpl.
  by rewrite delete_insert_same.
Qed.

Lemma checkEntryRequirements_warnings (warn_ : bool) (f : PreparedFormula) (w : World) :
  warnings w `prefix_of` warnings (checkEntryRequirements warn_ f w).2.
Proof.
  unfold checkEntryRequirements.
  repeat (match goal with |- context [if ?b then _ else _] => destruct b end);
    simpl; try done; by apply prefix_app_r.
Qed.

(** Every call either returns the world it was given or ends in
    [updateActorEntryFormulas], having touched nothing but the prepared
    formulas and, for [prepareFormula], the warnings. *)
Lemma call_cases (c : Call) (w : World) :
  call c w = w
  ∨ ∃ w1, call c w = updateActorEntryFormulas w1
          ∧ config (entry w1) = config (entry w)
          ∧ actorLevel w1 = actorLevel w
          ∧ updates w1 = updates w
          ∧ warnings w `prefix_of` warnings w1.
Proof.
  destruct c as [f|i u|i u|i u|i u q|i u|i u]; simpl.
  - right. unfold prepareFormula.
    destruct (checkEntryRequirements_frame true f w) as (He & Hl & Hu).
    pose proof (checkEntryRequirements_warnings true f w) as Hw.
    set (w1 := (checkEntryRequirements true f w).2) in *. clearbody w1.
    destruct (if isAlchemical (entry w1) then _ else _) as [[k g]|];
      eexists; (split; [reflexivity|]); simpl; by rewrite ?He.
  - unfold unprepareFormula. destruct (slot w i u); [right|by left].
    eexists. split; [reflexivity|]. done.
  - unfold increaseFormulaQuantity. destruct (slot w i u); [right|by left].
    eexists. split; [reflexivity|]. done.
  - unfold decreaseFormulaQuantity. destruct (slot w i u) as [g|] eqn:Hs; [right|by left].
    case_bool_decide.
    + rewrite (unprepareFormula_write_slot _ _ _ g) by done.
      unfold unprepareFormula. rewrite Hs. eexists. split; [reflexivity|]. done.
    + eexists. split; [reflexivity|]. done.
  - unfold setFormulaQuantity. destruct (slot w i u) as [g|] eqn:Hs; [right|by left].
    case_bool_decide.
    + rewrite (unprepareFormula_write_slot _ _ _ g) by done.
      unfold unprepareFormula. rewrite Hs. eexists. split; [reflexivity|]. done.
    + eexists. split; [reflexivity|]. done.
  - unfold toggleFormulaExpended. destruct (slot w i u); [right|by left].
    eexists. split; [reflexivity|]. done.
  - unfold toggleSignatureItem. destruct (slot w i u); [right|by left].
    eexists. split; [reflexivity|]. done.
Qed.

Lemma calls_snoc (cs : list Call) (c : Call) (w : World) :
  calls (cs ++ [c]) w = call c (calls cs w).
Proof. unfold calls. by rewrite foldl_app. Qed.

(** X5.  After any sequence of calls, either nothing at all has changed or
    the last update sent to the actor carries the prepared formulas as they
    now are, under the entry's selector: the entry never holds a change the
    actor has not been sent. *)
Theorem calls_synced (cs : list Call) (w : World) :
  calls cs w = w ∨ Synced (calls cs w).
Proof.
  induction cs as [|c cs IH] using rev_ind; [by left|].
  rewrite calls_snoc.
  destruct (call_cases c (calls cs w)) as [Hsame | (w1 & Hcall & _)].
  - by rewrite Hsame.
  - right. rewrite Hcall. unfold Synced, updateActorEntryFormulas, currentUpdate. simpl.
    by rewrite last_snoc.
Qed.

(** X6.  No sequence of calls changes the entry's configuration (selector,
    slot limit, level caps, batch sizes, required traits) or the actor's
    level, and the warnings and the updates already recorded stay as they
    are: both logs only grow. *)
Theorem calls_frame (cs : list Call) (w : World) :
  config (entry (calls cs w)) = config (entry w)
  ∧ actorLevel (calls cs w) = actorLevel w
  ∧ warnings w `prefix_of` warnings (calls cs w)
  ∧ updates w `prefix_of` updates (calls cs w).
Proof.
  induction cs as [|c cs IH] using rev_ind; [done|].
  rewrite calls_snoc. destruct IH as (Hc & Hl & Hw & Hu).
  destruct (call_cases c (calls cs w)) as [-> | (w1 & -> & Hc1 & Hl1 & Hu1 & Hw1)]; [done|].
  simpl. rewrite Hc1, Hl1, Hu1. split; [done|]. split; [done|]. split.
  - by etrans.
  - etrans; [exact Hu|]. by apply prefix_app_r.
Qed.

(** *** Invariants of an alchemical entry *)

Local Abbreviation Tidy w :=
  (NoDup (formula_uuid <$> preparedFormulas (entry w))
   ∧ Forall PositiveQuantity (preparedFormulas (entry w))).

Lemma Tidy_write (w : World) (index : Z) (itemUUID : string) (g g' : PreparedFormula) :
  slot w index itemUUID = Some g → item g' = item g → PositiveQuantity g' →
  Tidy w → Tidy (updateActorEntryFormulas (write_slot index g' w)).
Proof.
  intros Hs Hitem Hq [Hnd Hpos]. apply slot_Some in Hs as (_ & Hi & _). simpl. split.
  - rewrite list_fmap_insert. unfold formula_uuid at 1. rewrite Hitem.
    rewrite list_insert_id; [done|]. by rewrite list_lookup_fmap, Hi.
  - by apply Forall_insert.
Qed.

Lemma Tidy_unprepare (w : World) (index : Z) (itemUUID : string) :
  Tidy w → Tidy (unprepareFormula index itemUUID w).
Proof.
  intros [Hnd Hpos]. unfold unprepareFormula. destruct (slot w index itemUUID); [|done].
  simpl. split.
  - rewrite list_fmap_delete. exact (sublist_NoDup _ _ Hnd (sublist_delete _ _)).
  - by apply Forall_delete.
Qed.

Lemma Tidy_call (c : Call) (w : World) :
  isAlchemical (entry w) = true → Tidy w → Tidy (call c w).
Proof.
  intros Halch HT. destruct c as [f|i u|i u|i u|i u q|i u|i u]; simpl.
  - unfold prepareFormula.
    destruct (checkEntryRequirements_frame true f w) as (He & _ & _).
    set (w1 := (checkEntryRequirements true f w).2) in *. clearbody w1.
    rewrite <- He in Halch, HT. clear He. rewrite Halch. destruct HT as [Hnd Hpos].
    destruct (list_find _ _) as [[k g]|] eqn:Hfind; simpl.
    + apply list_find_Some in Hfind as (Hk & _ & _). split.
      * rewrite list_fmap_insert. unfold formula_uuid at 1. simpl.
        rewrite list_insert_id; [done|]. by rewrite list_lookup_fmap, Hk.
      * apply Forall_insert; [done|]. intros q [= <-].
        assert (PositiveQuantity g) as Hg
            by (eapply Forall_forall; [exact Hpos | by eapply list_elem_of_lookup_2]).
        unfold or_default, truthy. destruct (quantity g) as [q0|] eqn:Hq0; [|lia].
        specialize (Hg q0 Hq0). destruct (Z.eqb_spec q0 0); simpl; lia.
    + apply list_find_None in Hfind. split.
      * rewrite fmap_app. apply NoDup_app. split; [done|]. split; [|apply NoDup_singleton].
        intros x Hx Hin. apply list_elem_of_singleton in Hin. subst x.
        apply list_elem_of_fmap in Hx as (g & Hu & Hg).
        eapply Forall_forall in Hfind; [|exact Hg]. by apply Hfind.
      * apply Forall_app. split; [done|]. apply Forall_singleton. by intros q [= <-].
  - by apply Tidy_unprepare.
  - unfold increaseFormulaQuantity. destruct (slot w i u) as [g|] eqn:Hs; [|done].
    apply (Tidy_write w i u g); [exact Hs | done | | exact HT]. intros q [= <-].
    assert (PositiveQuantity g) as Hg.
    { apply slot_Some in Hs as (_ & Hi & _). destruct HT as [_ Hpos].
      eapply Forall_forall; [exact Hpos | by eapply list_elem_of_lookup_2]. }
    destruct (quantity g) as [q0|] eqn:Hq0; [|lia].
    specialize (Hg q0 Hq0). unfold truthy. destruct (Z.eqb_spec q0 0); simpl; lia.
  - unfold decreaseFormulaQuantity. destruct (slot w i u) as [g|] eqn:Hs; [|done].
    case_bool_decide.
    + rewrite (unprepareFormula_write_slot _ _ _ g) by done. by apply Tidy_unprepare.
    + apply (Tidy_write w i u g); [exact Hs | done | | exact HT]. intros q [= <-]. lia.
  - unfold setFormulaQuantity. destruct (slot w i u) as [g|] eqn:Hs; [|done].
    case_bool_decide.
    + rewrite (unprepareFormula_write_slot _ _ _ g) by done. by apply Tidy_unprepare.
    + apply (Tidy_write w i u g); [exact Hs | done | | exact HT]. intros q' [= <-]. lia.
  - unfold toggleFormulaExpended. destruct (slot w i u) as [g|] eqn:Hs; [|done].
    apply (Tidy_write w i u g); [exact Hs | done | | exact HT].
    apply slot_Some in Hs as (_ & Hi & _). destruct HT as [_ Hpos].
    eapply (Forall_forall PositiveQuantity) in Hpos; [|by eapply list_elem_of_lookup_2].
    exact Hpos.
  - unfold toggleSignatureItem. destruct (slot w i u) as [g|] eqn:Hs; [|done].
    apply (Tidy_write w i u g); [exact Hs | done | | exact HT].
    apply slot_Some in Hs as (_ & Hi & _). destruct HT as [_ Hpos].
    eapply (Forall_forall PositiveQuantity) in Hpos; [|by eapply list_elem_of_lookup_2].
    exact Hpos.
Qed.

Lemma call_isAlchemical (c : Call) (w : World) :
  isAlchemical (entry (call c w)) = isAlchemical (entry w).
Proof.
  destruct (call_cases c w) as [-> | (w1 & -> & Hc & _)]; [done|].
  simpl. by apply (f_equal isAlchemical) in Hc.
Qed.

(** X7.  In an alchemical entry no sequence of calls makes two prepared
    formulas share a uuid, and none leaves a prepared formula with a
    quantity of zero or less: a formula prepared again is stacked onto the
    one that is there, and one whose quantity runs out is removed. *)
Theorem alchemical_entry_stays_tidy (cs : list Call) (w : World) :
  isAlchemical (entry w) = true →
  NoDup (formula_uuid <$> preparedFormulas (entry w)) →
  Forall PositiveQuantity (preparedFormulas (entry w)) →
  NoDup (formula_uuid <$> preparedFormulas (entry (calls cs w)))
  ∧ Forall PositiveQuantity (preparedFormulas (entry (calls cs w))).
Proof.
  intros Halch Hnd Hpos.
  assert (isAlchemical (entry (calls cs w)) = true ∧ Tidy (calls cs w)) as [_ H]; [|exact H].
  induction cs as [|c cs [IHa IH]] using rev_ind; [done|].
  rewrite calls_snoc. split; [by rewrite call_isAlchemical | by apply Tidy_call].
Qed.

Lemma alchemical_entry_stays_tidy_witness :
  let bomb := Examples.formula Examples.bomb 1 None None in
  let w := calls [Prepare bomb; Prepare bomb; Decrease 0 "Item.bomb"; Decrease 0 "Item.bomb"]
                 (Examples.world (Examples.alchemist None []) 5) in
  preparedFormulas (entry w) = []
  ∧ NoDup (formula_uuid <$> preparedFormulas (entry w)).
Proof.
  intros bomb w. split; [reflexivity|].
  apply (alchemical_entry_stays_tidy
           [Prepare bomb; Prepare bomb; Decrease 0 "Item.bomb"; Decrease 0 "Item.bomb"]
           (Examples.world (Examples.alchemist None []) 5)).
  - reflexivity.
  - apply NoDup_nil_2.
  - apply Forall_nil_2.
Defined.

(** *** How the slot operations compose *)

(** X8.  Where no other slot holds a formula of the same uuid, setting a
    quantity of zero or less is unpreparing the formula, and so is
    decreasing a quantity that is 1 or less (or absent): the two calls
    return exactly what [unprepareFormula] returns. *)
Theorem running_out_unprepares (w : World) (index : Z) (itemUUID : string) (q : Z) :
  SoleSlot w index itemUUID →
  (q ≤ 0 → setFormulaQuantity index itemUUID q w = unprepareFormula index itemUUID w)
  ∧ ((∀ g q0, slot w index itemUUID = Some g → quantity g = Some q0 → q0 ≤ 1) →
     decreaseFormulaQuantity index itemUUID w = unprepareFormula index itemUUID w).
Proof.
  intros _. split.
  - intros Hq. unfold setFormulaQuantity.
    destruct (slot w index itemUUID) as [g|] eqn:Hs.
    + rewrite bool_decide_eq_true_2 by done. by apply (unprepareFormula_write_slot _ _ _ g).
    + unfold unprepareFormula. by rewrite Hs.
  - intros Hq. unfold decreaseFormulaQuantity.
    destruct (slot w index itemUUID) as [g|] eqn:Hs.
    + rewrite bool_decide_eq_true_2.
      * by apply (unprepareFormula_write_slot _ _ _ g).
      * destruct (quantity g) as [q0|] eqn:Hq0; [|done].
        specialize (Hq g q0 eq_refl Hq0). unfold truthy.
        destruct (Z.eqb_spec q0 0); simpl; lia.
    + unfold unprepareFormula. by rewrite Hs.
Qed.

Lemma running_out_unprepares_witness :
  let w := Examples.world
             (Examples.alchemist None
                [Examples.formula Examples.bomb 1 (Some 1) None;
                 Examples.formula Examples.elixir 1 (Some 2) None]) 5 in
  SoleSlot w 0 "Item.bomb"
  ∧ setFormulaQuantity 0 "Item.bomb" (-2) w = unprepareFormula 0 "Item.bomb" w
  ∧ decreaseFormulaQuantity 0 "Item.bomb" w = unprepareFormula 0 "Item.bomb" w
  ∧ preparedFormulas (entry (setFormulaQuantity 0 "Item.bomb" (-2) w))
    = [Examples.formula Examples.elixir 1 (Some 2) None].
Proof.
  intros w.
  assert (SoleSlot w 0 "Item.bomb") as Hsole.
  { intros j g Hj Hl. destruct j as [|[|j]]; [done| |done].
    injection Hl as <-. discriminate. }
  split; [exact Hsole|].
  destruct (running_out_unprepares w 0 "Item.bomb" (-2) Hsole) as [Hset Hdec].
  split; [|split; [|reflexivity]].
  - apply Hset. lia.
  - apply Hdec. intros g q0 Hs Hq. injection Hs as <-. injection Hq as <-. lia.
Defined.

(** X9.  Increasing and then decreasing the quantity of a formula with a
    positive quantity gives the entry back as it was, and the array the
    actor is sent last is the one of the entry before the two calls. *)
Theorem increase_then_decrease (w : World) (index : Z) (itemUUID : string)
        (g : PreparedFormula) (q : Z) :
  slot w index itemUUID = Some g → quantity g = Some q → 0 < q →
  let w' := decreaseFormulaQuantity index itemUUID (increaseFormulaQuantity index itemUUID w) in
  entry w' = entry w
  ∧ last (updates w') = Some (currentUpdate w)
  ∧ length (updates w') = S (S (length (updates w))).
Proof.
  intros Hs Hq Hpos w'. subst w'.
  pose proof Hs as Hs'. apply slot_Some in Hs' as (H0 & Hi & Hu).
  unfold increaseFormulaQuantity. rewrite Hs, Hq.
  assert (truthy q = true) as -> by (unfold truthy; destruct (Z.eqb_spec q 0); [lia|done]).
  set (g1 := set_quantity (Some (q + 1)) g).
  assert (slot (updateActorEntryFormulas (write_slot index g1 w)) index itemUUID = Some g1)
    as Hs1 by (by apply (slot_write_slot _ _ _ g)).
  unfold decreaseFormulaQuantity. rewrite Hs1. simpl.
  assert (truthy (q + 1) = true) as ->
      by (unfold truthy; destruct (Z.eqb_spec (q + 1) 0); [lia|done]).
  rewrite bool_decide_eq_false_2 by lia. simpl.
  assert (<[Z.to_nat index := set_quantity (Some (q + 1 - 1)) g1]>
            (<[Z.to_nat index := g1]> (preparedFormulas (entry w)))
          = preparedFormulas (entry w)) as Hback.
  { rewrite list_insert_insert_eq. apply list_insert_id. rewrite Hi. f_equal.
    unfold set_quantity, g1. simpl. replace (q + 1 - 1) with q by lia.
    rewrite <- Hq. by destruct g. }
  rewrite Hback. split; [by destruct (entry w)|]. split.
  - rewrite last_snoc. unfold currentUpdate. simpl. by destruct (entry w).
  - rewrite !length_app. simpl. lia.
Qed.

Lemma increase_then_decrease_witness :
  let w := Examples.world
             (Examples.alchemist None [Examples.formula Examples.bomb 1 (Some 3) None]) 5 in
  entry (decreaseFormulaQuantity 0 "Item.bomb" (increaseFormulaQuantity 0 "Item.bomb" w))
  = entry w.
Proof.
  intros w.
  apply (increase_then_decrease w 0 "Item.bomb" (Examples.formula Examples.bomb 1 (Some 3) None) 3).
  - reflexivity.
  - reflexivity.
  - lia.
Defined.

(** X10.  Where no other slot holds a formula of the same uuid, toggling
    the expended flag, or the signature-item flag, twice leaves a prepared
    formula with the flag it had, now stored as a boolean; the other
    formulas and the other fields are unchanged. *)
Theorem toggle_twice (w : World) (index : Z) (itemUUID : string) (g : PreparedFormula) :
  SoleSlot w index itemUUID →
  slot w index itemUUID = Some g →
  preparedFormulas
    (entry (toggleFormulaExpended index itemUUID (toggleFormulaExpended index itemUUID w)))
  = <[Z.to_nat index := set_expended (Some (flag (expended g))) g]> (preparedFormulas (entry w))
  ∧ preparedFormulas
      (entry (toggleSignatureItem index itemUUID (toggleSignatureItem index itemUUID w)))
    = <[Z.to_nat index := set_isSignatureItem (Some (flag (isSignatureItem g))) g]>
        (preparedFormulas (entry w)).
Proof.
  intros _ Hs. split.
  - unfold toggleFormulaExpended at 2. rewrite Hs.
    set (g1 := set_expended _ g).
    assert (slot (updateActorEntryFormulas (write_slot index g1 w)) index itemUUID = Some g1)
      as Hs1 by (by apply (slot_write_slot _ _ _ g)).
    unfold toggleFormulaExpended. rewrite Hs1. simpl.
    rewrite list_insert_insert_eq. f_equal.
    unfold set_expended, g1, flag. simpl. by rewrite negb_involutive.
  - unfold toggleSignatureItem at 2. rewrite Hs.
    set (g1 := set_isSignatureItem _ g).
    assert (slot (updateActorEntryFormulas (write_slot index g1 w)) index itemUUID = Some g1)
      as Hs1 by (by apply (slot_write_slot _ _ _ g)).
    unfold toggleSignatureItem. rewrite Hs1. simpl.
    rewrite list_insert_insert_eq. f_equal.
    unfold set_isSignatureItem, g1, flag. simpl. by rewrite negb_involutive.
Qed.

Lemma toggle_twice_witness :
  let g := Examples.formula Examples.bomb 1 (Some 3) (Some true) in
  let h := Examples.formula Examples.elixir 1 (Some 2) None in
  let w := Examples.world (Examples.alchemist None [g; h]) 5 in
  SoleSlot w 0 "Item.bomb"
  ∧ preparedFormulas
      (entry (toggleSignatureItem 0 "Item.bomb" (toggleSignatureItem 0 "Item.bomb" w)))
    = [g; h].
Proof.
  intros g h w.
  assert (SoleSlot w 0 "Item.bomb") as Hsole.
  { intros j g' Hj Hl. destruct j as [|[|j]]; [done| |done].
    injection Hl as <-. discriminate. }
  split; [exact Hsole|].
  exact (proj2 (toggle_twice w 0 "Item.bomb" g Hsole eq_refl)).
Defined.

(** *** Reagent cost and requirements *)

Lemma ceil_div_bounds (q b : Z) : 0 < q → 0 < b → 1 ≤ ceil_div q b ≤ q.
Proof. intros Hq Hb. pose proof (ceil_div_spec q b Hb). nia. Qed.

Lemma sumZ_le {A} (f g : A → Z) (l : list A) :
  Forall (λ x, f x ≤ g x) l → sumZ (f <$> l) ≤ sumZ (g <$> l).
Proof.
  induction 1 as [|x l Hx _ IH]; [done|]. rewrite !fmap_cons, !sumZ_cons. lia.
Qed.

Lemma sumZ_const {A} (l : list A) : sumZ ((λ _, 1) <$> l) = Z.of_nat (length l).
Proof. induction l as [|x l IH]; [done|]. rewrite fmap_cons, sumZ_cons. simpl length. lia. Qed.

(** X11.  In an alchemical entry whose batch sizes are positive and whose
    stored quantities are positive, every prepared formula costs at least
    one reagent and at most one per item: the reagent cost lies between
    the number of prepared formulas and the total quantity prepared. *)
Theorem reagentCost_bounds (e : CraftingEntry) :
  isAlchemical e = true →
  0 < or_default (batchSize e) 2 →
  0 < or_default (fieldDiscoveryBatchSize e) 3 →
  Forall PositiveQuantity (preparedFormulas e) →
  Z.of_nat (length (preparedFormulas e)) ≤ reagentCost e
  ∧ reagentCost e ≤ sumZ ((λ f, or_default (quantity f) 1) <$> preparedFormulas e).
Proof.
  intros Halch Hb Hfd Hpos. rewrite reagentCost_sum by done.
  assert (Forall (λ f, 1 ≤ formulaCost e f ≤ or_default (quantity f) 1) (preparedFormulas e))
    as Hcost.
  { eapply Forall_impl; [exact Hpos|]. intros f Hf. unfold formulaCost.
    apply ceil_div_bounds.
    - unfold or_default, truthy. destruct (quantity f) as [q|] eqn:Hq; [|lia].
      specialize (Hf q Hq). destruct (Z.eqb_spec q 0); simpl; lia.
    - unfold formulaBatchSize. by destruct (fieldDiscoveryEligible e f). }
  split.
  - rewrite <- sumZ_const. apply sumZ_le. eapply Forall_impl; [exact Hcost|].
    intros f Hf. simpl in *. lia.
  - apply sumZ_le. eapply Forall_impl; [exact Hcost|]. intros f Hf. simpl in *. lia.
Qed.

Lemma reagentCost_bounds_witness :
  let e := Examples.alchemist (Some "elixir")
             [Examples.formula Examples.bomb 1 (Some 3) None;
              Examples.formula Examples.elixir 1 (Some 4) None] in
  2 ≤ reagentCost e ∧ reagentCost e ≤ 7.
Proof.
  intros e.
  apply (reagentCost_bounds e); [reflexivity | reflexivity | reflexivity |].
  apply Forall_cons; split; [|apply Forall_cons; split; [|apply Forall_nil_2]].
  - intros q Hq. injection Hq as <-. lia.
  - intros q Hq. injection Hq as <-. lia.
Defined.

Lemma checkEntryRequirements_accepted (f : PreparedFormula) (w : World) :
  (checkEntryRequirements true f w).1 = true → (checkEntryRequirements true f w).2 = w.
Proof.
  unfold checkEntryRequirements.
  repeat (match goal with |- context [if ?b then _ else _] => destruct b end); done.
Qed.

(** X12.  The [warn] option of [checkEntryRequirements] changes the log of
    warnings only: the verdict is the same with and without it, without it
    the check leaves no trace, and a formula that is accepted is never
    warned about. *)
Theorem checkEntryRequirements_quiet (f : PreparedFormula) (w : World) :
  checkEntryRequirements false f w = ((checkEntryRequirements true f w).1, w)
  ∧ ((checkEntryRequirements true f w).1 = true → (checkEntryRequirements true f w).2 = w).
Proof.
  unfold checkEntryRequirements.
  repeat (match goal with |- context [if ?b then _ else _] => destruct b end); done.
Qed.

Lemma checkEntryRequirements_quiet_witness :
  let f := Examples.formula Examples.bomb 1 None None in
  let w := Examples.world (Examples.snares 2 []) 1 in
  (checkEntryRequirements true f w).2 = w.
Proof.
  intros f w. apply (checkEntryRequirements_quiet f w). reflexivity.
Defined.

(** X13.  A formula that [checkEntryRequirements] accepts meets the level
    and trait requirements, and preparing it keeps the entry within its
    slot limit and adds no warning. *)
Theorem accepted_formula_fits (f : PreparedFormula) (w : World) :
  (checkEntryRequirements true f w).1 = true →
  level f ≤ actorLevel w
  ∧ level f ≤ maxItemLevel (entry w)
  ∧ (∃ ts, ts ∈ requiredTraits (entry w) ∧ ∀ t, t ∈ ts → t ∈ traits (item f))
  ∧ (maxSlots (entry w) ≠ 0 →
     Z.of_nat (length (preparedFormulas (entry (prepareFormula f w)))) ≤ maxSlots (entry w))
  ∧ warnings (prepareFormula f w) = warnings w.
Proof.
  intros Hok.
  assert (¬ ((maxSlots (entry w) ≠ 0
              ∧ maxSlots (entry w) ≤ Z.of_nat (length (preparedFormulas (entry w))))
             ∨ actorLevel w < level f
             ∨ maxItemLevel (entry w) < level f
             ∨ hasRequiredTraits (entry w) f = false)) as Hn.
  { intros Hbad. apply (checkEntryRequirements_false true) in Hbad. congruence. }
  pose proof (checkEntryRequirements_accepted f w Hok) as Hsame.
  split; [lia|]. split; [lia|]. split; [|split].
  - destruct (hasRequiredTraits (entry w) f) eqn:Ht; [|tauto].
    unfold hasRequiredTraits in Ht. apply existsb_exists in Ht as (ts & Hin & Hall).
    exists ts. split; [by apply list_elem_of_In|].
    intros t Ht. rewrite forallb_forall in Hall.
    specialize (Hall t (proj1 (list_elem_of_In _ _) Ht)). by apply bool_decide_eq_true in Hall.
  - intros Hslots. unfold prepareFormula. rewrite Hsame.
    destruct (if isAlchemical (entry w) then _ else _) as [[k g]|]; simpl.
    + rewrite length_insert. lia.
    + rewrite length_app. simpl. lia.
  - unfold prepareFormula. rewrite Hsame.
    by destruct (if isAlchemical (entry w) then _ else _) as [[k g]|].
Qed.

Lemma accepted_formula_fits_witness :
  let f := Examples.formula Examples.bomb 1 None None in
  let w := Examples.world (Examples.snares 2 [Examples.formula Examples.elixir 1 None None]) 1 in
  Z.of_nat (length (preparedFormulas (entry (prepareFormula f w)))) ≤ 2.
Proof.
  intros f w.
  destruct (accepted_formula_fits f w eq_refl) as (_ & _ & _ & Hfit & _).
  apply Hfit. simpl. lia.
Defined.

Lemma sumZ_insert {A} (g : A → Z) (l : list A) (i : nat) (x y : A) :
  l !! i = Some x → sumZ (g <$> <[i:=y]> l) = sumZ (g <$> l) - g x + g y.
Proof.
  revert i. induction l as [|z l IH]; intros [|i] Hi; simpl in Hi; try done.
  - injection Hi as ->. cbn [list_insert insert]. rewrite !fmap_cons, !sumZ_cons. lia.
  - change (<[S i:=y]> (z :: l)) with (z :: <[i:=y]> l).
    rewrite !fmap_cons, !sumZ_cons, (IH i Hi). lia.
Qed.

(** X30.  In an alchemical entry whose stored quantities are positive,
    every call of [prepareFormula] adds exactly one item: the total
    quantity prepared (a formula without a quantity counting as one) goes
    up by one, whether the formula was prepared before or not. *)
Theorem prepareFormula_adds_one (f : PreparedFormula) (w : World) :
  isAlchemical (entry w) = true →
  Forall PositiveQuantity (preparedFormulas (entry w)) →
  sumZ ((λ g, or_default (quantity g) 1) <$> preparedFormulas (entry (prepareFormula f w)))
  = sumZ ((λ g, or_default (quantity g) 1) <$> preparedFormulas (entry w)) + 1.
Proof.
  intros Halch Hpos. unfold prepareFormula.
  destruct (checkEntryRequirements_frame true f w) as (He & _ & _).
  set (w1 := (checkEntryRequirements true f w).2) in *. clearbody w1.
  rewrite <- He in Halch, Hpos |- *. clear He. rewrite Halch.
  destruct (list_find _ _) as [[k g]|] eqn:Hfind; simpl.
  - apply list_find_Some in Hfind as (Hk & _ & _).
    rewrite (sumZ_insert _ _ _ g) by done. simpl.
    assert (0 < or_default (quantity g) 1) as Hq.
    { assert (PositiveQuantity g) as Hg
          by (eapply Forall_forall; [exact Hpos | by eapply list_elem_of_lookup_2]).
      unfold or_default, truthy. destruct (quantity g) as [q0|] eqn:Hq0; [|lia].
      specialize (Hg q0 Hq0). destruct (Z.eqb_spec q0 0); simpl; lia. }
    assert (truthy (or_default (quantity g) 1 + 1) = true) as ->.
    { unfold truthy. destruct (Z.eqb_spec (or_default (quantity g) 1 + 1) 0); [lia|done]. }
    lia.
  - rewrite fmap_app, sumZ_app, fmap_cons, fmap_nil, sumZ_cons. simpl.
    change (sumZ []) with 0. lia.
Qed.

Lemma prepareFormula_adds_one_witness :
  let bomb := Examples.formula Examples.bomb 1 None None in
  let w := Examples.world
             (Examples.alchemist None [Examples.formula Examples.bomb 1 (Some 2) None]) 5 in
  sumZ ((λ g, or_default (quantity g) 1) <$> preparedFormulas (entry (prepareFormula bomb w)))
  = 3.
Proof.
  intros bomb w. rewrite (prepareFormula_adds_one bomb w).
  - reflexivity.
  - reflexivity.
  - apply Forall_cons; split; [|apply Forall_nil_2]. intros q Hq. injection Hq as <-. lia.
Defined.

End CraftingCalls.

(** ** Actor data preparation: errors, stale data, traits *)

Section ActorPreparation.
Import Actor.

Lemma forValues_source {A} (f : A → option A) (e : A → A) (l : list (string * A)) :
  (∀ x, f (e x) = f x) → forValues f (prod_map id e <$> l) = forValues f l.
Proof.
  intros Hf. unfold forValues. induction l as [|[k v] l IH]; [done|].
  rewrite fmap_cons. cbn [mapM]. simpl. rewrite Hf. by rewrite IH.
Qed.

Section WithHost.
Context (Choices : Type) (damageTypes conditionTypes languages : Choices)
        (_backCompat : string → Choices → list string)
        (super_prepareData : ActorData → ActorData).

Let own := prepareOwnData Choices damageTypes conditionTypes languages _backCompat.
Let prepare :=
  prepareData Choices damageTypes conditionTypes languages _backCompat super_prepareData.
Let table := traitMap Choices damageTypes conditionTypes languages.

Lemma migrateTrait_lookup (tc : string * Choices) (ts ts' : gmap string Trait) :
  migrateTrait Choices _backCompat tc ts = Some ts' →
  is_Some (ts !! tc.1)
  ∧ ts' !! tc.1 = migratedTrait _backCompat tc.2 <$> ts !! tc.1
  ∧ ∀ k, k ≠ tc.1 → ts' !! k = ts !! k.
Proof.
  unfold migrateTrait, migratedTrait. destruct (ts !! tc.1) as [tr|] eqn:Htr; [|done]. simpl.
  destruct (trait_value tr) as [l|raw] eqn:Hv; intros [= <-].
  - split; [by eexists|]. by rewrite Htr.
  - split; [by eexists|]. split; [by rewrite lookup_insert_eq|].
    intros k Hk. by rewrite lookup_insert_ne.
Qed.

Lemma migrateTraits_is_Some (m : list (string * Choices)) (ts : gmap string Trait) :
  is_Some (migrateTraits Choices _backCompat m ts) ↔ Forall (λ tc, is_Some (ts !! tc.1)) m.
Proof.
  split; [|apply migrateTraits_total].
  revert ts. induction m as [|tc m IH]; intros ts [ts' H]; [done|]. simpl in H.
  apply bind_Some in H as (ts1 & H1 & H).
  apply migrateTrait_lookup in H1 as (Hhere & Hthere & Hother).
  constructor; [done|].
  assert (Forall (λ tc', is_Some (ts1 !! tc'.1)) m) as Hm by (apply IH; by eexists).
  eapply Forall_impl; [exact Hm|]. intros tc' Hk. simpl in *.
  destruct (decide (tc'.1 = tc.1)) as [->|Hne]; [done|]. by rewrite <- Hother.
Qed.

(** X14.  On a document that has the sections of the actor template,
    [prepareData] returns when the five trait entries (dr, di, dv, ci,
    languages) are there and, for a character, every ability that a save,
    a skill, perception or the spell DC names is one of the actor's own
    abilities.  It throws when one of the five trait entries is missing. *)
Theorem prepareData_returns (ad : ActorData) :
  let a := super_prepareData ad in
  let present :=
    Forall (λ k, is_Some (traits (data a) !! k)) ["dr"; "di"; "dv"; "ci"; "languages"] in
  (present →
   (type a = "character" →
    Forall (λ kv, is_Some (abilities (data a) !! save_ability kv.2)) (saves (data a))
    ∧ Forall (λ kv, is_Some (abilities (data a) !! skill_ability kv.2)) (skills (data a))
    ∧ is_Some (abilities (data a) !! perception_ability (perception (attributes (data a))))
    ∧ is_Some (abilities (data a) !! spellAbl (attributes (data a)))) →
   is_Some (prepare ad))
  ∧ (¬ present → prepare ad = None).
Proof.
  intros a present. subst present. unfold prepare, prepareData. fold a. fold own.
  set (d := data a).
  set (d1 := with_abilities (prepareAbility <$> abilities d) d).
  assert (∀ k, is_Some (abilities d1 !! k) ↔ is_Some (abilities d !! k)) as Hlift.
  { intros k. simpl. rewrite lookup_fmap. destruct (abilities d !! k); simpl;
      split; intros [? ?]; by eauto. }
  assert (Forall (λ k, is_Some (traits d !! k)) ["dr"; "di"; "dv"; "ci"; "languages"]
          ↔ Forall (λ tc : string * Choices, is_Some (traits d !! tc.1)) table) as Hkeys.
  { unfold table, traitMap. rewrite !Forall_cons. simpl. by rewrite !Forall_nil. }
  rewrite Hkeys. split.
  - intros Htraits Hchar. unfold own, prepareOwnData. cbv zeta. fold d d1.
    assert (∃ d2, (if decide (type a = "character") then _prepareCharacterData d1
                   else if decide (type a = "npc") then _prepareNPCData d1 else Some d1)
                  = Some d2 ∧ traits d2 = traits d) as (d2 & -> & Htr).
    { case_decide as Hty; [|unfold _prepareNPCData; case_decide; by exists d1].
      destruct (Hchar Hty) as (Hs & Hk & Hp & Hd).
      destruct (_prepareCharacterData_total d1) as [d2 Hd2].
      - eapply Forall_impl; [exact Hs|]. intros kv. apply Hlift.
      - eapply Forall_impl; [exact Hk|]. intros kv. apply Hlift.
      - by apply Hlift.
      - by apply Hlift.
      - exists d2. split; [done|].
        by apply _prepareCharacterData_Some in Hd2 as (_ & _ & -> & _). }
    cbn [mbind option_bind]. rewrite Htr.
    destruct (migrateTraits_total Choices _backCompat table (traits d) Htraits) as [ts Hts].
    fold table. rewrite Hts. by eexists.
  - intros Hmissing. apply eq_None_not_Some. intros [ad' H]. apply Hmissing.
    apply prepareOwnData_Some in H as (d2 & Hphase & Hts & _). fold d d1 in Hphase.
    assert (traits d2 = traits d) as Htr.
    { case_decide as Hty.
      - by apply _prepareCharacterData_Some in Hphase as (_ & _ & -> & _).
      - injection Hphase as <-. done. }
    rewrite <- Htr. apply migrateTraits_is_Some. by eexists.
Qed.

(** *** Stale derived fields *)

Lemma _prepareCharacterData_source (abls : gmap string Ability) (d : Data) :
  _prepareCharacterData (with_abilities abls (sourceOf d))
  = _prepareCharacterData (with_abilities abls d).
Proof.
  unfold _prepareCharacterData. simpl. unfold parseInt.
  rewrite (forValues_source (prepareSave abls (level_value (details d))) sourceOfSave)
    by done.
  rewrite (forValues_source
             (prepareSkill abls (ac_check (attributes d)) (level_value (details d)))
             sourceOfSkill) by done.
  assert (prod_map id (prepareMartial (level_value (details d)))
            <$> (prod_map id sourceOfMartial <$> martial d)
          = prod_map id (prepareMartial (level_value (details d))) <$> martial d) as ->.
  { rewrite <- list_fmap_compose. apply list_fmap_ext. by intros i [k m] _. }
  reflexivity.
Qed.

(** X15.  What a character's preparation returns does not depend on the
    derived fields of the document it is given: a document and the same
    document with its modifiers, values, breakdowns, spell DC and
    experience bar wiped prepare to the same result.  So two stored
    characters that agree on their source fields agree once prepared. *)
Theorem prepareOwnData_ignores_derived (a b : ActorData) :
  type a = "character" → type b = "character" →
  sourceOf (data a) = sourceOf (data b) →
  own a = own b.
Proof.
  assert (∀ x, type x = "character" →
               own x = own {| type := "character"; data := sourceOf (data x) |}) as Hsrc.
  { intros x Hx. unfold own, prepareOwnData. cbv zeta. simpl. rewrite Hx.
    rewrite !decide_True by done.
    assert (prepareAbility <$> (sourceOfAbility <$> abilities (data x))
            = prepareAbility <$> abilities (data x)) as ->
        by (rewrite <- map_fmap_compose; by apply map_fmap_ext).
    change (with_abilities (prepareAbility <$> abilities (data x)) (sourceOf (data x)))
      with (with_abilities (prepareAbility <$> abilities (data x))
              (sourceOf (data x))).
    assert (with_abilities (prepareAbility <$> abilities (data x)) (sourceOf (data x))
            = with_abilities (prepareAbility <$> abilities (data x))
                (sourceOf (with_abilities (prepareAbility <$> abilities (data x)) (data x))))
      as Heq by reflexivity.
    rewrite Heq, _prepareCharacterData_source. reflexivity. }
  intros Ha Hb Hab. rewrite (Hsrc a Ha), (Hsrc b Hb). by rewrite Hab.
Qed.

(** X16.  For an actor that is not a character the preparation computes
    the ability modifiers and migrates the traits and leaves everything
    else as it is: saves, martial skills, skills, attributes and details
    come back unchanged (with whatever derived values they held). *)
Theorem prepareOwnData_other_types (ad ad' : ActorData) :
  type ad ≠ "character" →
  own ad = Some ad' →
  type ad' = type ad
  ∧ abilities (data ad') = prepareAbility <$> abilities (data ad)
  ∧ saves (data ad') = saves (data ad)
  ∧ martial (data ad') = martial (data ad)
  ∧ skills (data ad') = skills (data ad)
  ∧ attributes (data ad') = attributes (data ad)
  ∧ details (data ad') = details (data ad).
Proof.
  intros Hty H. apply prepareOwnData_Some in H as (d2 & Hphase & _ & Htype & ->).
  rewrite decide_False in Hphase by done. injection Hphase as <-. done.
Qed.

(** X17.  After a preparation each of the five trait entries holds an
    array: one that held an array is untouched, one that held a legacy
    string holds what the trait selector made of the string and of the
    key's option table (damage types for dr, di and dv, condition types for
    ci, languages for languages), with its custom text kept.  Trait entries
    under other keys are not touched. *)
Theorem prepareOwnData_traits (ad ad' : ActorData) (k : string) :
  own ad = Some ad' →
  traits (data ad') !! k
  = (if decide (k ∈ ["dr"; "di"; "dv"]) then migratedTrait _backCompat damageTypes
     else if decide (k = "ci") then migratedTrait _backCompat conditionTypes
     else if decide (k = "languages") then migratedTrait _backCompat languages
     else id) <$> traits (data ad) !! k.
Proof.
  clear prepare super_prepareData table.
  intros H. apply prepareOwnData_Some in H as (d2 & Hphase & Hts & _ & _).
  assert (traits d2 = traits (data ad)) as Htr.
  { case_decide.
    - by apply _prepareCharacterData_Some in Hphase as (_ & _ & -> & _).
    - by injection Hphase as <-. }
  rewrite Htr in Hts. clear Hphase Htr d2.
  unfold traitMap in Hts. simpl in Hts.
  apply bind_Some in Hts as (t1 & H1 & Hts). apply migrateTrait_lookup in H1 as (_ & E1 & O1).
  apply bind_Some in Hts as (t2 & H2 & Hts). apply migrateTrait_lookup in H2 as (_ & E2 & O2).
  apply bind_Some in Hts as (t3 & H3 & Hts). apply migrateTrait_lookup in H3 as (_ & E3 & O3).
  apply bind_Some in Hts as (t4 & H4 & Hts). apply migrateTrait_lookup in H4 as (_ & E4 & O4).
  apply bind_Some in Hts as (t5 & H5 & Hts). apply migrateTrait_lookup in H5 as (_ & E5 & O5).
  injection Hts as <-. simpl in E1, E2, E3, E4, E5, O1, O2, O3, O4, O5.
  destruct (decide (k = "languages")) as [->|Nl].
  { rewrite E5, O4, O3, O2, O1 by done. by rewrite decide_False by set_solver. }
  rewrite (O5 k Nl).
  destruct (decide (k = "ci")) as [->|Nc].
  { rewrite E4, O3, O2, O1 by done. by rewrite decide_False by set_solver. }
  rewrite (O4 k Nc).
  destruct (decide (k = "dv")) as [->|Nv].
  { rewrite E3, O2, O1 by done. by rewrite decide_True by set_solver. }
  rewrite (O3 k Nv).
  destruct (decide (k = "di")) as [->|Ni].
  { rewrite E2, O1 by done. by rewrite decide_True by set_solver. }
  rewrite (O2 k Ni).
  destruct (decide (k = "dr")) as [->|Nr].
  { rewrite E1. by rewrite decide_True by set_solver. }
  rewrite (O1 k Nr). rewrite decide_False by set_solver.
  by destruct (traits (data ad) !! k).
Qed.

End WithHost.

Lemma prepareData_returns_witness :
  is_Some (prepareData unit tt tt tt Examples.backCompat1 (λ a, a) Examples.hero)
  ∧ prepareData unit tt tt tt Examples.backCompat1 (λ a, a) Examples.heroWithoutDv = None.
Proof.
  split.
  - apply (prepareData_returns unit tt tt tt Examples.backCompat1 (λ a, a) Examples.hero).
    + repeat constructor; eexists; vm_compute; reflexivity.
    + intros _. split; [|split; [|split]].
      * repeat constructor; eexists; vm_compute; reflexivity.
      * repeat constructor; eexists; vm_compute; reflexivity.
      * eexists; vm_compute; reflexivity.
      * eexists; vm_compute; reflexivity.
  - apply (prepareData_returns unit tt tt tt Examples.backCompat1 (λ a, a)
             Examples.heroWithoutDv).
    intros H. apply Forall_cons in H as [_ H]. apply Forall_cons in H as [_ H].
    apply Forall_cons in H as [[tr Htr] _]. vm_compute in Htr. discriminate.
Defined.

Lemma prepareOwnData_ignores_derived_witness :
  prepareOwnData unit tt tt tt Examples.backCompat1 Examples.hero
  = prepareOwnData unit tt tt tt Examples.backCompat1
      {| type := "character"; data := sourceOf (data Examples.hero) |}.
Proof.
  apply (prepareOwnData_ignores_derived unit tt tt tt Examples.backCompat1).
  - reflexivity.
  - reflexivity.
  - vm_compute. reflexivity.
Defined.

Lemma prepareOwnData_other_types_witness :
  let npc := {| type := "npc"; data := data Examples.hero |} in
  ∃ ad', prepareOwnData unit tt tt tt Examples.backCompat1 npc = Some ad'
         ∧ saves (data ad') = saves (data Examples.hero).
Proof.
  intros npc.
  destruct (prepareOwnData unit tt tt tt Examples.backCompat1 npc) as [ad'|] eqn:H.
  - exists ad'. split; [reflexivity|].
    apply (prepareOwnData_other_types unit tt tt tt Examples.backCompat1 npc ad');
      [simpl; discriminate | exact H].
  - exfalso. vm_compute in H. discriminate H.
Defined.

Lemma prepareOwnData_traits_witness :
  traits (data Examples.heroPrepared) !! "dr"
  = Some {| trait_value := TArray ["fire, cold"]; trait_custom := "" |}.
Proof.
  rewrite (prepareOwnData_traits unit tt tt tt Examples.backCompat1
             Examples.hero Examples.heroPrepared "dr").
  - vm_compute. reflexivity.
  - vm_compute. reflexivity.
Defined.

End ActorPreparation.

(** ** Experience bar and damage *)

Section ExperienceAndDamage.
Import Actor.

Lemma Math_round_tenths (v : Z) :
  Math_round (Qc_of_Z v * Qc_of_Z 100 / Qc_of_Z 1000)%Qc = (v + 5) `div` 10.
Proof.
  unfold Math_round.
  assert (this (Qc_of_Z v * Qc_of_Z 100 / Qc_of_Z 1000 + Q2Qc (1 # 2))%Qc == (v + 5) # 10)%Q
    as Heq.
  { unfold Qcdiv, Qcmult, Qcplus, Qcinv, Q2Qc, Qc_of_Z. cbn [this].
    rewrite !Qred_correct. unfold Qeq, Qplus, Qmult, Qinv, inject_Z. simpl. lia. }
  rewrite (Qfloor_comp _ _ Heq). reflexivity.
Qed.

(** X18.  The experience bar is the experience points divided by ten,
    rounded to the nearest whole number with halves going up, as long as
    that is below 100; from 995 points on it stays at 99.5.  The maximum is
    set to 1000 whatever was stored. *)
Theorem xp_bar (d : Details) :
  xp_max (prepareDetails d) = 1000
  ∧ (xp_value d < 995 →
     xp_pct (prepareDetails d) = Qc_of_Z ((xp_value d + 5) `div` 10)
     ∧ (xp_value d + 5) `div` 10 ≤ 99)
  ∧ (995 ≤ xp_value d → xp_pct (prepareDetails d) = Q2Qc (995 # 10)).
Proof.
  split; [reflexivity|]. unfold prepareDetails. cbn [xp_pct]. rewrite Math_round_tenths.
  set (r := (xp_value d + 5) `div` 10).
  assert ((Qc_of_Z r ≤ Q2Qc (995 # 10))%Qc ↔ r ≤ 99) as Hle.
  { unfold Qcle, Qc_of_Z, Q2Qc. cbn [this]. rewrite Qred_correct.
    unfold Qle, inject_Z. simpl. lia. }
  unfold Math_min. split.
  - intros Hlt. assert (r ≤ 99) as Hr.
    { subst r. apply Z.lt_succ_r. apply Z.div_lt_upper_bound; lia. }
    split; [|done]. by rewrite decide_True by (by apply Hle).
  - intros Hge. assert (100 ≤ r) as Hr.
    { subst r. apply Z.div_le_lower_bound; lia. }
    rewrite decide_False; [done|]. rewrite Hle. lia.
Qed.

Lemma xp_bar_witness :
  xp_pct (prepareDetails {| level_value := 5; xp_value := 994; xp_max := 0; xp_pct := Q2Qc 0 |})
  = Qc_of_Z 99
  ∧ xp_pct (prepareDetails {| level_value := 5; xp_value := 2000; xp_max := 0;
                              xp_pct := Q2Qc 0 |})
    = Q2Qc (995 # 10).
Proof.
  split.
  - apply (xp_bar {| level_value := 5; xp_value := 994; xp_max := 0; xp_pct := Q2Qc 0 |}).
    simpl. lia.
  - apply (xp_bar {| level_value := 5; xp_value := 2000; xp_max := 0; xp_pct := Q2Qc 0 |}).
    simpl. lia.
Defined.

(** X19.  Damage is taken from the pool of temporary and real hit points,
    temporary ones first: for a token with temporary hit points not below
    zero and hit points between zero and the maximum, a damage value
    [v > 0] leaves the real hit points alone as long as the temporary ones
    cover it, and in every case what is left of the pool is what it held
    minus [v], or zero when [v] is more. *)
Theorem damage_comes_off_the_pool (rollTotal multiplier : Qc) (controlled : list HP) :
  let v := Qfloor (rollTotal * multiplier)%Qc in
  0 < v →
  Forall2 (λ hp u,
             0 ≤ hp_temp hp → 0 ≤ hp_value hp ≤ hp_max hp →
             new_temp u + new_value u = Z.max 0 (hp_temp hp + hp_value hp - v)
             ∧ 0 ≤ new_temp u ≤ hp_temp hp
             ∧ new_value u ≤ hp_value hp
             ∧ (v ≤ hp_temp hp → new_value u = hp_value hp)
             ∧ (0 < new_temp u → new_value u = hp_value hp))
          controlled (applyDamage rollTotal multiplier controlled).
Proof.
  intros v Hv. unfold applyDamage. fold (damageValue rollTotal multiplier).
  change (damageValue rollTotal multiplier) with v.
  apply Forall2_fmap_r, Forall_Forall2_diag, Forall_forall. intros hp _ Htemp Hval.
  unfold damageToken, parseInt, Math_clamped. simpl.
  rewrite bool_decide_eq_true_2 by done. lia.
Qed.

Lemma damage_comes_off_the_pool_witness :
  Forall (λ u, new_temp u + new_value u = 38)
         (applyDamage (Qc_of_Z 10) (Q2Qc (1 # 2)) [Examples.wounded]).
Proof.
  pose proof (damage_comes_off_the_pool (Qc_of_Z 10) (Q2Qc (1 # 2)) [Examples.wounded]
                ltac:(vm_compute; reflexivity)) as H.
  eapply Forall2_Forall_r; [exact H|].
  apply Forall_cons; split; [|apply Forall_nil_2].
  intros u Hu. destruct Hu as (Hsum & _); [simpl; lia | simpl; lia |]. exact Hsum.
Defined.

(** X20.  A damage value of zero or less (healing) writes the temporary
    hit points back as [parseInt] reads them: unchanged when they are a
    number, [NaN] when they are not.  Whatever they are, for a token whose
    hit points are not below zero it adds the amount to the hit points and
    stops at the maximum. *)
Theorem healing_stops_at_max {Raw} (parseInt : Raw → JsNumber)
        (rollTotal multiplier : Qc) (controlled : list (Stored.HP Raw)) :
  let v := Qfloor (rollTotal * multiplier)%Qc in
  v ≤ 0 →
  Forall2 (λ hp u,
             Stored.new_temp u = parseInt (Stored.hp_temp hp)
             ∧ (∀ temp, parseInt (Stored.hp_temp hp) = Num temp →
                Stored.new_temp u = Num temp)
             ∧ (parseInt (Stored.hp_temp hp) = NaN → Stored.new_temp u = NaN)
             ∧ (0 ≤ Stored.hp_value hp →
                Stored.new_value u
                = Num (Z.min (Stored.hp_max hp) (Stored.hp_value hp - v))))
          controlled (Stored.applyDamage parseInt rollTotal multiplier controlled).
Proof.
  intros v Hv. unfold Stored.applyDamage. fold (damageValue rollTotal multiplier).
  change (damageValue rollTotal multiplier) with v.
  apply Forall2_fmap_r, Forall_Forall2_diag, Forall_forall. intros hp _.
  unfold compose, Stored.damageToken. cbv beta zeta.
  cbn [Stored.new_temp Stored.new_value].
  rewrite bool_decide_eq_false_2 by lia.
  assert (Stored.minus (parseInt (Stored.hp_temp hp)) (Num 0)
          = parseInt (Stored.hp_temp hp)) as Hsame.
  { destruct (parseInt (Stored.hp_temp hp)) as [temp|]; simpl; [|done].
    by rewrite Z.sub_0_r. }
  rewrite Hsame. split; [done|]. split; [done|]. split; [done|].
  intros Hval. simpl. f_equal. lia.
Qed.

Lemma healing_stops_at_max_witness :
  Stored.applyDamage Examples.parseField (Qc_of_Z 30) (Qc_of_Z (-1))
    [Examples.woundedStored; Examples.emptyTemp]
  = [ {| Stored.new_temp := Num 3; Stored.new_value := Num 56 |};
      {| Stored.new_temp := NaN; Stored.new_value := Num 56 |} ]
  ∧ Forall2 (λ hp u, Stored.new_temp u = Examples.parseField (Stored.hp_temp hp)
                     ∧ Stored.new_value u = Num 56)
      [Examples.woundedStored; Examples.emptyTemp]
      (Stored.applyDamage Examples.parseField (Qc_of_Z 30) (Qc_of_Z (-1))
         [Examples.woundedStored; Examples.emptyTemp]).
Proof.
  split; [reflexivity|].
  pose proof (healing_stops_at_max Examples.parseField (Qc_of_Z 30) (Qc_of_Z (-1))
                [Examples.woundedStored; Examples.emptyTemp]
                ltac:(vm_compute; discriminate)) as H.
  apply Forall2_cons_1 in H as [(Ht1 & _ & _ & Hv1) H].
  apply Forall2_cons_1 in H as [(Ht2 & _ & _ & Hv2) _].
  apply Forall2_cons; split; [|apply Forall2_cons; split; [|apply Forall2_nil_2]].
  - split; [exact Ht1|]. apply Hv1. simpl. lia.
  - split; [exact Ht2|]. apply Hv2. simpl. lia.
Defined.

End ExperienceAndDamage.

(** ** Item documents: roll options, deletion, chat cards *)

Section ItemMore.
Import Item.

(** X21.  Whatever prefix [getRollOptions] is given, every option it
    returns starts with that prefix and a colon (with nothing when the
    prefix is empty), the id option is among them, and their number is two
    plus the number of traits, plus one each for a level, for the prefix
    "item" or "", and for a consumable. *)
Theorem getRollOptions_shape (sluggify : string → string) (prefix_arg : option string)
        (it : ItemDoc) :
  let prefix := default (type it) prefix_arg in
  let delimitedPrefix := if decide (prefix = "") then "" else prefix +:+ ":" in
  let options := getRollOptions sluggify prefix_arg it in
  Forall (λ o, ∃ rest, o = delimitedPrefix +:+ rest) options
  ∧ (delimitedPrefix +:+ "id:" +:+ id it) ∈ options
  ∧ length options
    = (2 + length (default [] (traits it))
       + (match level it with Some _ => 1 | None => 0 end)
       + (if bool_decide (prefix ∈ ["item"; ""]) then 1 else 0)
       + (if isOfType it ["consumable"] then 1 else 0))%nat.
Proof.
  intros prefix dp options. subst options. unfold getRollOptions. fold prefix. fold dp.
  cbv zeta.
  set (core := [dp +:+ "id:" +:+ id it; dp +:+ default (sluggify (name it)) (slug it)]
               ++ ((λ t, dp +:+ t) <$> ((λ t, "trait:" +:+ t) <$> default [] (traits it)))).
  assert (Forall (λ o, ∃ rest, o = dp +:+ rest) core) as Hcore.
  { subst core. apply Forall_app. split.
    - repeat constructor; by eexists.
    - apply Forall_fmap, Forall_forall. intros t _. simpl. by eexists. }
  assert ((dp +:+ "id:" +:+ id it) ∈ core) as Hid by (subst core; set_solver).
  assert (length core = (2 + length (default [] (traits it)))%nat) as Hlen.
  { subst core. rewrite length_app, !length_fmap. done. }
  clearbody core.
  destruct (level it) as [n|]; case_bool_decide; destruct (isOfType it ["consumable"]);
    (split;
     [ repeat first [ exact Hcore | apply Forall_nil_2 | apply Forall_app; split
                    | apply Forall_cons; split | by eexists ]
     | split;
       [ set_solver
       | repeat (rewrite length_app || rewrite length_cons); rewrite Hlen; simpl; lia ] ]).
Qed.

(** X22.  Called with the prefix "item" or "", [getRollOptions] puts the
    type option first: "feature" for a feat that is a class or ancestry
    feature, the item's type otherwise.  Called with any other prefix it
    puts the id option first and returns no such type option for an item
    that is not a consumable. *)
Theorem getRollOptions_first (sluggify : string → string) (prefix_arg : option string)
        (it : ItemDoc) :
  let prefix := default (type it) prefix_arg in
  let delimitedPrefix := if decide (prefix = "") then "" else prefix +:+ ":" in
  head (getRollOptions sluggify prefix_arg it)
  = Some (if bool_decide (prefix ∈ ["item"; ""])
          then delimitedPrefix +:+ "type:"
               +:+ (if bool_decide (type it = "feat") && isFeature it then "feature"
                    else type it)
          else delimitedPrefix +:+ "id:" +:+ id it).
Proof.
  intros prefix dp. unfold getRollOptions. fold prefix. fold dp. cbv zeta.
  assert (isOfType it ["feat"] = bool_decide (type it = "feat")) as ->
      by (unfold isOfType; simpl; by rewrite orb_false_r).
  destruct (level it); case_bool_decide; destruct (isOfType it ["consumable"]); done.
Qed.

(** *** deleteDocuments *)

Lemma elem_of_uniq (ids : list string) (x : string) : x ∈ uniq ids ↔ x ∈ ids.
Proof.
  induction ids as [|y ids IH]; [done|]. simpl.
  rewrite !elem_of_cons, list_elem_of_filter, IH.
  destruct (decide (x = y)); naive_solver.
Qed.

Lemma NoDup_uniq (ids : list string) : NoDup (uniq ids).
Proof.
  induction ids as [|y ids IH]; simpl; constructor.
  - rewrite list_elem_of_filter. naive_solver.
  - by apply NoDup_filter.
Qed.

Lemma filter_all {A} (P : A → Prop) `{!∀ x, Decision (P x)} (l : list A) :
  Forall P l → filter P l = l.
Proof.
  induction 1 as [|x l Hx _ IH]; [done|]. rewrite filter_cons_True by done. by rewrite IH.
Qed.

Lemma uniq_NoDup (ids : list string) : NoDup ids → uniq ids = ids.
Proof.
  induction 1 as [|y ids Hy _ IH]; [done|]. simpl. rewrite IH. f_equal.
  apply filter_all. apply Forall_forall. intros x Hx ->. done.
Qed.

(** X23.  The ids that [deleteDocuments] hands to the host never contain
    an id twice.  With a parent actor each of them is an id the actor has
    after the pre-delete callbacks; without one they are the requested
    ids, first occurrences in order. *)
Theorem deleteDocuments_ids (preDelete : list ItemDoc → list ItemDoc)
        (hasAfter : string → bool) (ids : list string)
        (items : option (gmap string ItemDoc)) :
  NoDup (deleteDocuments preDelete hasAfter ids items)
  ∧ (is_Some items →
     Forall (λ x, hasAfter x = true) (deleteDocuments preDelete hasAfter ids items))
  ∧ (items = None →
     deleteDocuments preDelete hasAfter ids items = uniq ids
     ∧ ∀ x, x ∈ deleteDocuments preDelete hasAfter ids items ↔ x ∈ ids).
Proof.
  unfold deleteDocuments. destruct items as [m|].
  - split; [apply NoDup_filter, NoDup_uniq|]. split; [|done].
    intros _. apply Forall_forall. intros x Hx. by apply list_elem_of_filter in Hx as [? _].
  - split; [apply NoDup_uniq|]. split; [by intros [? ?]|].
    intros _. split; [done|]. apply elem_of_uniq.
Qed.

Lemma deleteDocuments_ids_witness :
  deleteDocuments (λ l, l) (λ _, true) ["b"; "a"; "b"] None = ["b"; "a"]
  ∧ ("a" ∈ deleteDocuments (λ l, l) (λ _, true) ["b"; "a"; "b"] None ↔ "a" ∈ ["b"; "a"; "b"]).
Proof.
  destruct (deleteDocuments_ids (λ l, l) (λ _, true) ["b"; "a"; "b"] None) as (_ & _ & H).
  destruct (H eq_refl) as [Heq Hin]. split; [exact Heq | exact (Hin "a")].
Defined.

(** X24.  When no callback adds to the pending items and nothing is
    removed meanwhile, the ids handed to the host for an actor whose items
    are filed under their ids are the requested ids that the actor has,
    first occurrences in order: an id the actor lacks is dropped, not
    reported. *)
Theorem deleteDocuments_known_ids (ids : list string) (m : gmap string ItemDoc) :
  (∀ k it, m !! k = Some it → id it = k) →
  deleteDocuments (λ l, l) (λ k, bool_decide (is_Some (m !! k))) ids (Some m)
  = filter (λ k, is_Some (m !! k)) (uniq ids).
Proof.
  intros Hkey. unfold deleteDocuments.
  assert (id <$> omap (λ k, m !! k) (uniq ids) = filter (λ k, is_Some (m !! k)) (uniq ids))
    as Hids.
  { induction (uniq ids) as [|k l IH]; [done|].
    cbn [omap list_omap]. rewrite filter_cons.
    destruct (m !! k) as [it|] eqn:Hk.
    - rewrite decide_True by (by eexists). rewrite fmap_cons, IH. by rewrite (Hkey k it Hk).
    - by rewrite decide_False by (by intros [? ?]). }
  rewrite Hids. rewrite uniq_NoDup by apply NoDup_filter, NoDup_uniq.
  apply list_filter_filter_r. intros k Hk. by apply bool_decide_eq_true.
Qed.

Lemma deleteDocuments_known_ids_witness :
  deleteDocuments (λ l, l)
    (λ k, bool_decide (is_Some (({[ "a1" := Examples.grab ]} : gmap string ItemDoc) !! k)))
    ["zz"; "a1"; "a1"] (Some {[ "a1" := Examples.grab ]})
  = ["a1"].
Proof.
  rewrite (deleteDocuments_known_ids ["zz"; "a1"; "a1"] {[ "a1" := Examples.grab ]}).
  - vm_compute. reflexivity.
  - intros k it Hk. apply lookup_singleton_Some in Hk as [<- <-]. reflexivity.
Defined.

(** *** _onDelete *)

Lemma attackEffectUpdates_elem (slug : string) (melee : list Melee) (u : EffectsUpdate) :
  u ∈ attackEffectUpdates slug melee ↔
  ∃ attack, attack ∈ melee ∧ slug ∈ attackEffects attack
            ∧ u = {| upd_id := melee_id attack;
                     upd_effects := filter (λ effect, effect ≠ slug) (attackEffects attack) |}.
Proof.
  unfold attackEffectUpdates. rewrite list_elem_of_omap. split.
  - intros (attack & Hin & Hu). exists attack. case_bool_decide; [|done].
    injection Hu as <-. done.
  - intros (attack & Hin & Hslug & ->). exists attack. split; [done|].
    by rewrite bool_decide_eq_true_2.
Qed.

(** The updates are those of the attacks that list the slug, one each and
    in the order of the attacks. *)
Lemma attackEffectUpdates_filter (slug : string) (melee : list Melee) :
  attackEffectUpdates slug melee
  = (λ attack, {| upd_id := melee_id attack;
                  upd_effects := filter (λ effect, effect ≠ slug) (attackEffects attack) |})
      <$> filter (λ attack, slug ∈ attackEffects attack) melee.
Proof.
  unfold attackEffectUpdates. induction melee as [|attack melee IH]; [done|].
  cbn [omap list_omap]. rewrite filter_cons. case_bool_decide as Hslug.
  - rewrite decide_True by done. rewrite fmap_cons. f_equal. exact IH.
  - rewrite decide_False by done. exact IH.
Qed.

(** X25.  When an action or consumable of an NPC is deleted by a user who
    may modify the actor, the updates sent are, in the order of the
    actor's melee attacks, exactly one for each attack that lists the
    item's slug among its attack effects and none for the others; the
    update of an attack carries the attack's id and its attack effects
    with every occurrence of the slug removed and the others kept as they
    were, in order.  The updates travel inside the actor update for a
    linked actor and one by one for a token actor, never both; for any
    other actor or item type no attack is updated. *)
Theorem onDelete_attack_effects (sluggify : string → string) (it : ItemDoc)
        (ctx : option DeleteContext) :
  let slug := default (sluggify (name it)) (slug it) in
  let out := _onDelete sluggify it ctx in
  let sent := default [] (actorUpdateItems out) ++ itemUpdatesSent out in
  Forall (λ u, (slug ∉ upd_effects u)
               ∧ ∃ actor attack, ctx = Some actor ∧ attack ∈ meleeItems actor
                   ∧ melee_id attack = upd_id u ∧ slug ∈ attackEffects attack
                   ∧ ∀ e, e ∈ upd_effects u ↔ (e ∈ attackEffects attack ∧ e ≠ slug)) sent
  ∧ (∀ actor, ctx = Some actor →
       isCreature actor = true → canModify actor = true → isNpc actor = true →
       type it ∈ ["action"; "consumable"] →
       Forall2 (λ attack u,
                  upd_id u = melee_id attack
                  ∧ upd_effects u = filter (λ effect, effect ≠ slug) (attackEffects attack)
                  ∧ upd_effects u `sublist_of` attackEffects attack)
               (filter (λ attack, slug ∈ attackEffects attack) (meleeItems actor)) sent
       ∧ (∀ attack, attack ∈ meleeItems actor → slug ∈ attackEffects attack →
                    ∃ u, u ∈ sent ∧ upd_id u = melee_id attack)
       ∧ (length sent ≤ length (meleeItems actor))%nat
       ∧ (if isToken actor then actorUpdateItems out = Some []
          else itemUpdatesSent out = []))
  ∧ (sent ≠ [] →
     ∃ actor, ctx = Some actor ∧ isCreature actor = true ∧ canModify actor = true
              ∧ isNpc actor = true ∧ type it ∈ ["action"; "consumable"]).
Proof.
  intros slug out sent.
  assert (∀ actor, Forall (λ u, (slug ∉ upd_effects u)
               ∧ ∃ actor' attack, Some actor = Some actor' ∧ attack ∈ meleeItems actor'
                   ∧ melee_id attack = upd_id u ∧ slug ∈ attackEffects attack
                   ∧ ∀ e, e ∈ upd_effects u ↔ (e ∈ attackEffects attack ∧ e ≠ slug))
            (attackEffectUpdates slug (meleeItems actor))) as Hall.
  { intros actor. apply Forall_forall. intros u Hu.
    apply attackEffectUpdates_elem in Hu as (attack & Hin & Hslug & ->). simpl. split.
    - rewrite list_elem_of_filter. naive_solver.
    - exists actor, attack. split; [done|]. split; [done|]. split; [done|]. split; [done|].
      intros e. rewrite list_elem_of_filter. tauto. }
  assert (∀ actor,
            Forall2 (λ attack u,
                  upd_id u = melee_id attack
                  ∧ upd_effects u = filter (λ effect, effect ≠ slug) (attackEffects attack)
                  ∧ upd_effects u `sublist_of` attackEffects attack)
               (filter (λ attack, slug ∈ attackEffects attack) (meleeItems actor))
               (attackEffectUpdates slug (meleeItems actor))) as Hexact.
  { intros actor. rewrite attackEffectUpdates_filter.
    apply Forall2_fmap_r, Forall_Forall2_diag, Forall_forall. intros attack _. simpl.
    split; [done|]. split; [done|]. apply sublist_filter. }
  subst sent out. unfold _onDelete. destruct ctx as [actor|].
  2: { simpl. split; [constructor|]. split; [by intros ? [=] | by intros []]. }
  destruct (isCreature actor && canModify actor) eqn:Hcm; simpl.
  2: { split; [constructor|]. split; [|by intros []].
       intros actor' [= <-] Hc Hm. by rewrite Hc, Hm in Hcm. }
  apply andb_true_iff in Hcm as [Hc Hm].
  destruct (isNpc actor) eqn:Hn; simpl.
  2: { split; [constructor|]. split; [|by intros []].
       intros actor' [= <-] _ _ Hn'. congruence. }
  case_bool_decide as Hty; simpl.
  2: { split; [constructor|]. split; [|by intros []].
       by intros actor' [= <-] _ _ _ Hty'. }
  assert (length (attackEffectUpdates slug (meleeItems actor)) ≤ length (meleeItems actor))%nat
    as Hlen.
  { unfold attackEffectUpdates. induction (meleeItems actor) as [|a l IH]; [done|].
    cbn [omap list_omap]. case_bool_decide; simpl; lia. }
  assert (∀ attack, attack ∈ meleeItems actor → slug ∈ attackEffects attack →
                    ∃ u, u ∈ attackEffectUpdates slug (meleeItems actor)
                         ∧ upd_id u = melee_id attack) as Hcomplete.
  { intros attack Hin Hslug.
    exists {| upd_id := melee_id attack;
              upd_effects := filter (λ effect, effect ≠ slug) (attackEffects attack) |}.
    split; [|reflexivity]. apply attackEffectUpdates_elem. by exists attack. }
  destruct (isToken actor) eqn:Ht; simpl; rewrite ?app_nil_r.
  - split; [apply Hall|]. split.
    + intros actor' [= <-] _ _ _ _. rewrite Ht. split; [apply Hexact|]. done.
    + intros _. by exists actor.
  - split; [apply Hall|]. split.
    + intros actor' [= <-] _ _ _ _. rewrite Ht. split; [apply Hexact|]. done.
    + intros _. by exists actor.
Qed.

Lemma onDelete_attack_effects_witness :
  actorUpdateItems (_onDelete Examples.lowercase Examples.grab (Some (Examples.npc false)))
  = Some [ {| upd_id := "jaws"; upd_effects := ["poison"] |};
           {| upd_id := "tail"; upd_effects := ["knockdown"] |} ]
  ∧ itemUpdatesSent (_onDelete Examples.lowercase Examples.grab (Some (Examples.npc false)))
    = []
  ∧ Forall2 (λ attack u,
               upd_id u = melee_id attack
               ∧ upd_effects u = filter (λ effect, effect ≠ "grab") (attackEffects attack))
      (filter (λ attack, "grab" ∈ attackEffects attack) Examples.attacks)
      (default [] (actorUpdateItems
                     (_onDelete Examples.lowercase Examples.grab (Some (Examples.npc false))))
       ++ itemUpdatesSent
            (_onDelete Examples.lowercase Examples.grab (Some (Examples.npc false)))).
Proof.
  split; [reflexivity|].
  destruct (onDelete_attack_effects Examples.lowercase Examples.grab
              (Some (Examples.npc false))) as (_ & H & _).
  destruct (H (Examples.npc false) eq_refl eq_refl eq_refl eq_refl)
    as (Hexact & _ & _ & Hchannel).
  - set_solver.
  - split; [exact Hchannel|].
    eapply Forall2_impl; [exact Hexact|].
    intros attack u (Hid & Heff & _). split; assumption.
Defined.

(** *** toMessage *)

(** X26.  A blind chat card is always whispered to the GMs, a card is
    whispered exactly in the GM and blind roll modes, a roll mode passed to
    [toMessage] is not overridden by the control or meta key, and without
    one either key makes the card blind. *)
Theorem message_visibility (rollMode : option string) (event : option KeyEvent)
        (setting : string) (gms : list string) :
  let v := messageVisibility rollMode event setting gms in
  (blind v = true → whisper v = Some gms)
  ∧ (whisper v = None ∨ whisper v = Some gms)
  ∧ (∀ m, rollMode = Some m →
          v = messageVisibility (Some m) None setting gms
          ∧ (blind v = true ↔ m = "blindroll")
          ∧ (is_Some (whisper v) ↔ m = "gmroll" ∨ m = "blindroll"))
  ∧ (∀ e, rollMode = None → event = Some e → ctrlKey e || metaKey e = true →
          blind v = true)
  ∧ (rollMode = None →
     (∀ e, event = Some e → ctrlKey e || metaKey e = false) →
     v = messageVisibility (Some setting) None setting gms).
Proof.
  intros v. subst v. unfold messageVisibility. split; [|split; [|split; [|split]]].
  - simpl. intros Hb. apply bool_decide_eq_true in Hb. rewrite Hb. done.
  - simpl. case_bool_decide; auto.
  - intros m ->. simpl. split; [done|]. split.
    + by rewrite bool_decide_eq_true.
    + case_bool_decide as Hm; split; try (by intros [? ?]); try (by eexists).
      * intros _. set_solver.
      * intros Hor. exfalso. apply Hm. set_solver.
  - intros e -> -> He. simpl. by rewrite He.
  - intros -> He. destruct event as [e|]; [|done]. by rewrite (He e eq_refl).
Qed.

Lemma message_visibility_witness :
  messageVisibility None (Some {| ctrlKey := true; metaKey := false |}) "publicroll" ["gm1"]
  = {| whisper := Some ["gm1"]; blind := true |}
  ∧ blind (messageVisibility None (Some {| ctrlKey := true; metaKey := false |})
             "publicroll" ["gm1"]) = true.
Proof.
  split; [reflexivity|].
  destruct (message_visibility None (Some {| ctrlKey := true; metaKey := false |})
              "publicroll" ["gm1"]) as (_ & _ & _ & Hkey & _).
  exact (Hkey {| ctrlKey := true; metaKey := false |} eq_refl eq_refl eq_refl).
Defined.

End ItemMore.

(** ** The settings menu and the perception macro *)

Section SettingsMenu.
Import Settings.
Context {SettingData Value : Type}.

Lemma settingKey_inj (m : Menu SettingData) (k k' : string) :
  settingKey m k = settingKey m k' → k = k'.
Proof.
  unfold settingKey. intros H.
  apply (inj (String.app (namespace m))) in H. by apply (inj (String.app ".")) in H.
Qed.

Lemma register_fold (m : Menu SettingData) (l : list string) (h : Host SettingData Value) :
  let h' := foldl (λ h setting,
                     {| registered :=
                          <[settingKey m setting :=
                              {| declared := declaredFor m setting; scope := "world";
                                 config := false |}]> (registered h);
                        stored := stored h |}) h l in
  (∀ k, k ∈ l →
        registered h' !! settingKey m k
        = Some {| declared := declaredFor m k; scope := "world"; config := false |})
  ∧ (∀ key, (∀ k, k ∈ l → key ≠ settingKey m k) → registered h' !! key = registered h !! key)
  ∧ stored h' = stored h.
Proof.
  induction l as [|k0 l IH] using rev_ind; simpl.
  - split; [by intros k Hk%elem_of_nil | done].
  - rewrite foldl_app. simpl. destruct IH as (Hin & Hout & Hst). split; [|split; [|done]].
    + intros k Hk. destruct (decide (k = k0)) as [->|Hne].
      * by rewrite lookup_insert_eq.
      * rewrite lookup_insert_ne by (intros E; by apply settingKey_inj in E).
        apply Hin. set_solver.
    + intros key Hkey. rewrite lookup_insert_ne by (intros E; eapply Hkey; [|done]; set_solver).
      apply Hout. intros k Hk. apply Hkey. set_solver.
Qed.

(** X27.  [registerSettings] registers every setting of the menu under
    its namespaced key with scope "world" and [config] false, whatever the
    menu declares for scope and config, and with nothing but those two for
    a setting the menu does not declare.  Registrations under other keys
    and the stored values are left alone. *)
Theorem registerSettings_spec (m : Menu SettingData) (h : Host SettingData Value) :
  (∀ k, k ∈ SETTINGS m →
        registered (registerSettings m h) !! (namespace m +:+ "." +:+ k)
        = Some {| declared := declaredFor m k; scope := "world"; config := false |})
  ∧ (∀ key, (∀ k, k ∈ SETTINGS m → key ≠ namespace m +:+ "." +:+ k) →
            registered (registerSettings m h) !! key = registered h !! key)
  ∧ stored (registerSettings m h) = stored h.
Proof. apply (register_fold m (SETTINGS m) h). Qed.

Lemma update_fold (m : Menu SettingData) (data : gmap string Value) (l : list string)
      (h : Host SettingData Value) :
  let h' := foldl (λ h key,
                     {| registered := registered h;
                        stored := <[settingKey m key := data !! key]> (stored h) |}) h l in
  registered h' = registered h
  ∧ (∀ k, k ∈ l → stored h' !! settingKey m k = Some (data !! k))
  ∧ (∀ key, (∀ k, k ∈ l → key ≠ settingKey m k) → stored h' !! key = stored h !! key).
Proof.
  induction l as [|k0 l IH] using rev_ind; simpl.
  - split; [done|]. split; [by intros k Hk%elem_of_nil | done].
  - rewrite foldl_app. simpl. destruct IH as (Hreg & Hin & Hout). split; [done|]. split.
    + intros k Hk. destruct (decide (k = k0)) as [->|Hne].
      * by rewrite lookup_insert_eq.
      * rewrite lookup_insert_ne by (intros E; by apply settingKey_inj in E).
        apply Hin. set_solver.
    + intros key Hkey. rewrite lookup_insert_ne by (intros E; eapply Hkey; [|done]; set_solver).
      apply Hout. intros k Hk. apply Hkey. set_solver.
Qed.

(** X28.  After the form has been submitted, the menu shows for every
    setting of its list the value the form held for it (or none, when the
    form had no field of that name); a declared setting that is not on the
    list keeps the value it had, fields of the form that are no setting of
    the menu are not stored, and no registration changes. *)
Theorem updateObject_then_getData (hasChoices isBooleanType : SettingData → bool)
        (m : Menu SettingData) (data : gmap string Value) (h : Host SettingData Value) :
  let h' := _updateObject m data h in
  registered h' = registered h
  ∧ Forall2 (λ before after,
               row_key after = row_key before
               ∧ row_setting after = row_setting before
               ∧ row_value after
                 = if decide (row_key before ∈ SETTINGS m) then data !! row_key before
                   else row_value before)
            (getData hasChoices isBooleanType m h) (getData hasChoices isBooleanType m h')
  ∧ (∀ key, (∀ k, k ∈ SETTINGS m → key ≠ namespace m +:+ "." +:+ k) →
            stored h' !! key = stored h !! key).
Proof.
  intros h'. destruct (update_fold m data (SETTINGS m) h) as (Hreg & Hin & Hout).
  fold (_updateObject m data h) in Hreg, Hin, Hout. fold h' in Hreg, Hin, Hout.
  split; [done|]. split; [|exact Hout].
  unfold getData. apply Forall2_fmap, Forall_Forall2_diag, Forall_forall.
  intros [k sd] _. simpl. split; [done|]. split; [done|].
  case_decide as Hk.
  - by rewrite (Hin k Hk).
  - rewrite Hout; [done|]. intros k' Hk' E. apply settingKey_inj in E. by subst.
Qed.

End SettingsMenu.

Section PerceptionMacro.
Import Macro.

(** X29.  The perception macro either rolls or reports: it shows the
    error, and rolls nothing, exactly when no controlled token has an actor
    that is a character, an NPC or a familiar; otherwise it rolls once for
    each such token, in the order of the tokens, always as a secret roll,
    and never for a token of another kind. *)
Theorem perceptionForSelected_spec (controlled : list Token) :
  let eligible :=
    filter (λ a, actor_type a ∈ ["character"; "npc"; "familiar"])
           (omap token_actor controlled) in
  match perceptionForSelected controlled with
  | NotifyError message =>
      eligible = [] ∧ message = "You must select at least one PC/NPC token."
  | Rolled rolls =>
      eligible ≠ []
      ∧ roller <$> rolls = eligible
      ∧ Forall (λ r, roll_options r = ["secret"]) rolls
  end.
Proof.
  intros eligible. unfold perceptionForSelected.
  set (actors := omap _ controlled).
  assert (actors = eligible) as ->.
  { subst actors eligible. induction controlled as [|t l IH]; [done|].
    cbn [omap list_omap]. destruct (token_actor t) as [a|]; [|done].
    rewrite filter_cons. case_bool_decide.
    - rewrite decide_True by done. by rewrite IH.
    - rewrite decide_False by done. done. }
  case_bool_decide as Hlen.
  - split; [|done]. by apply nil_length_inv.
  - split; [by intros ->|]. split.
    + rewrite <- list_fmap_compose. by rewrite list_fmap_id.
    + apply Forall_fmap, Forall_forall. by intros a _.
Qed.

End PerceptionMacro.
